(** * websockethandler: registry, pipeline tree, invocation gate, dispatch

    A shallow embedding of [handler.go] (registry, [shell], [CallFunc],
    [CallPipelineFunc], log levels and [ParseLevel]) and [utils.go]
    ([getFunctionName]), followed by the properties of the design document
    that were checked against it.

    Conventions of the embedding.
    - Go strings are byte strings: [string] of Stdlib, one [ascii] per byte.
    - [level] is [uint8]; the seven constants are 0 .. 6.
    - [interface{}] values are [iface]: [nil], a boxed string, or any other
      boxed value (of the abstract type [V]).
    - [error] values are kept symbolically: the format string given to
      [fmt.Errorf] with its operands, or one of the two sentinel errors of
      package [context].
    - Time is a logical clock in nanoseconds ([time.Duration] units); the
      statements of the program take no time, the sleep of a [select] and
      the calls of the handlers do.
    - Effects (records handed to [logger.Print], handler invocations, sends
      on the output channel) are appended to the [trace] of the [World].
    - Calls are modelled one at a time (no mutex); a handler returns when
      it is called (it neither panics nor blocks); a send on the output
      channel goes through (the consumer drains the channel).
    - Loops that need not end ([shell], [CallPipelineFunc]) take fuel and
      answer [Spinning] when it is spent. *)

From Stdlib Require Import NArith Lia Ascii String.
From stdpp Require Import base option list strings gmap.

Local Open Scope string_scope.
Local Open Scope list_scope.
Local Open Scope N_scope.

(** ** Strings: [strings.ToLower], [strings.Split] as used by the program *)

(** ASCII part of [unicode.ToLower]: ['A'..'Z'] move by 32. *)
Definition lower_byte (c : ascii) : ascii :=
  let n := N_of_ascii c in
  if (65 <=? n) && (n <=? 90) then ascii_of_N (n + 32) else c.

Definition upper_byte (c : ascii) : ascii :=
  let n := N_of_ascii c in
  if (97 <=? n) && (n <=? 122) then ascii_of_N (n - 32) else c.

Definition is_byte (c : ascii) (n : N) : bool := N_of_ascii c =? n.

(** [strings.ToLower].  ASCII bytes are lowered one by one.  Two runes
    outside ASCII have an ASCII lower case in Go's tables: U+0130 (bytes
    C4 B0) lowers to [i] and U+212A (bytes E2 84 AA) lowers to [k].  The
    bytes of every other rune outside ASCII are kept as they are: their
    lower case is outside ASCII as well, which is all that a comparison
    of the result with an ASCII constant can observe. *)
Fixpoint ToLower (s : string) : string :=
  match s with
  | EmptyString => EmptyString
  | String c1 rest =>
      match rest with
      | String c2 rest2 =>
          if is_byte c1 196 && is_byte c2 176 then String "i" (ToLower rest2)
          else
            match rest2 with
            | String c3 rest3 =>
                if is_byte c1 226 && is_byte c2 132 && is_byte c3 170
                then String "k" (ToLower rest3)
                else String (lower_byte c1) (ToLower rest)
            | EmptyString => String (lower_byte c1) (ToLower rest)
            end
      | EmptyString => String (lower_byte c1) EmptyString
      end
  end.

Fixpoint map_bytes (g : ascii -> ascii) (s : string) : string :=
  match s with
  | EmptyString => EmptyString
  | String c rest => String (g c) (map_bytes g rest)
  end.

Fixpoint has_slash (s : string) : bool :=
  match s with
  | EmptyString => false
  | String c rest => is_byte c 47 || has_slash rest
  end.

(** The bytes after the last ["/"]: [funcName[len(funcName)-1]] of
    [strings.Split(fullFuncName, "/")]. *)
Fixpoint last_segment (acc s : string) : string :=
  match s with
  | EmptyString => acc
  | String c rest =>
      if is_byte c 47 then last_segment EmptyString rest
      else last_segment (acc +:+ String c EmptyString) rest
  end.

(** [getFunctionName]: the name that [runtime.FuncForPC] reports for the
    caller is passed in. *)
Definition getFunctionName (fullFuncName : string) : string :=
  last_segment EmptyString fullFuncName.

Definition name_Handle : string :=
  getFunctionName "github.com/bydanovm/websockethandler.(*wsHandler).Handle".
Definition name_CallPipelineFunc : string :=
  getFunctionName "github.com/bydanovm/websockethandler.(*wsHandler).CallPipelineFunc".
Definition name_CallFunc : string :=
  getFunctionName "github.com/bydanovm/websockethandler.(*wsHandler).CallFunc".
Definition name_shell : string :=
  getFunctionName "github.com/bydanovm/websockethandler.(*wsHandler).shell".

(** ** Levels *)

Definition level := N.

Definition panicLevel : level := 0.
Definition fatalLevel : level := 1.
Definition errorLevel : level := 2.
Definition warnLevel : level := 3.
Definition infoLevel : level := 4.
Definition debugLevel : level := 5.
Definition traceLevel : level := 6.

Definition PanicLevel : string := "panic".
Definition FatalLevel : string := "fatal".
Definition ErrorLevel : string := "error".
Definition WarnLevel : string := "warning".
Definition InfoLevel : string := "info".
Definition DebugLevel : string := "debug".
Definition TraceLevel : string := "trace".

(** The spellings accepted by the [switch] of [ParseLevel]. *)
Definition level_names : list string :=
  ["panic"; "fatal"; "error"; "warn"; "warning"; "info"; "debug"; "trace"].

(** ** Keys *)

Record WsFunc := { fEvent : string; fStatus : string }.

#[global] Instance WsFunc_eq_dec : EqDecision WsFunc.
Proof. solve_decision. Defined.

#[global] Instance WsFunc_countable : Countable WsFunc.
Proof.
  refine (inj_countable' (fun m => (fEvent m, fStatus m))
                         (fun p => {| fEvent := p.1; fStatus := p.2 |}) _).
  by intros [].
Defined.

(** ** Data model *)

Section Model.

(** [V]: the values other than [nil] and strings that an [interface{}]
    may hold.  [Env]: everything outside the registry that a handler can
    read or change (the handlers are opaque business logic). *)
Context {V Env : Type}.

Inductive iface : Type :=
| inil
| istr (s : string)
| ival (v : V).

Record MessagePayload := {
  Event : string;
  Data : iface;
  Status : string;
  Broadcast : bool;
}.

Record WsFuncData := {
  Client : iface;
  Payload : MessagePayload;
}.

(** [fmt.Errorf(format, operands...)], not rendered; [context.Canceled]
    and [context.DeadlineExceeded] are the sentinels of package context. *)
Inductive error : Type :=
| Canceled
| DeadlineExceeded
| Errorf (format : string) (operands : list operand)
with operand : Type :=
| OpErr (e : error)
| OpStr (s : string)
| OpMeta (m : WsFunc)
| OpData (d : WsFuncData).

(** [e == context.DeadlineExceeded]. *)
Definition is_DeadlineExceeded (e : error) : bool :=
  match e with DeadlineExceeded => true | _ => false end.

(** A [context.Context], seen from the program: [Done()] is closed from
    instant [t] on and [Err()] is [e] from then on, when [done_at] is
    [Some (t, e)]; the context is never done when it is [None]. *)
Record Context := { done_at : option (N * error) }.

Definition Background : Context := {| done_at := None |}.

Definition Nanosecond : N := 1.
Definition Millisecond : N := 1000000 * Nanosecond.
Definition Second : N := 1000 * Millisecond.

(** [context.WithTimeout(parent, timeout)] called at instant [t]: done when
    the parent is done (with the parent's error) or at [t + timeout] (with
    [DeadlineExceeded]), whichever comes first. *)
Definition WithTimeout (parent : Context) (timeout : N) (t : N) : Context :=
  let d := t + timeout in
  match done_at parent with
  | Some (tp, e) =>
      if tp <=? d then {| done_at := Some (tp, e) |}
      else {| done_at := Some (d, DeadlineExceeded) |}
  | None => {| done_at := Some (d, DeadlineExceeded) |}
  end.

(** What a call of a handler gives back: the two results of the Go
    function, the time the call took and the environment it leaves. *)
Record HandlerReturn := {
  ret_data : WsFuncData;
  ret_err : option error;
  elapsed : N;
  env_after : Env;
}.

(** A [HandlerFunc].  [repr] is [fmt.Sprintf("%#v", f)], the text by which
    the registry tells functions apart; [call] is the function, applied to
    the context, the data, the instant of the call and the environment. *)
Record HandlerFunc := {
  repr : string;
  call : Context -> WsFuncData -> N -> Env -> HandlerReturn;
}.

(** A cell of the pipeline tree.  A [*wsHandlerTree] is represented by the
    key of [funcTree] under which the cell it points to is stored: [Handle]
    stores every cell it allocates under the [repr] of its [main] at once,
    and never replaces or removes an entry of [funcTree]. *)
Record wsHandlerTree := {
  main : HandlerFunc;
  parent : option string;
  children : option string;
}.

Inductive bodyItem : Type :=
| BodyPayload (p : MessagePayload)
| BodyClient (c : iface).

Record strLog := {
  UUID : string;
  LogEvent : error;
  Level : level;
  Module_ : string;
  Format : string;
  Body : list bodyItem;
}.

(** The registry.  The mutex is left out: calls are modelled one at a time.
    The logger is the collaborator that receives [LoggerPrint]. *)
Record wsHandler := {
  fun_ : gmap WsFunc HandlerFunc;
  funcTree : gmap string wsHandlerTree;
  logLevel : level;
  err : option error;
}.

(** ** The world outside the registry *)

Inductive Effect : Type :=
| LoggerPrint (r : strLog)
| Invoked (f : string) (ctx : Context) (d : WsFuncData)
| ChanSend (p : MessagePayload).

Record World := {
  clock : N;
  env : Env;
  drawn : nat;
  trace : list Effect;
}.

(** What the Go runtime decides: the [n]-th string of [uuid.NewString],
    and which of two cases that become ready at the same instant a
    [select] takes ([true]: the first one). *)
Record Runtime := {
  uuid_NewString : nat -> string;
  select_first : N -> bool;
}.

Variable rt : Runtime.

Definition printed (w : World) : list strLog :=
  omap (fun e => match e with LoggerPrint r => Some r | _ => None end) (trace w).

Definition invocations (w : World) : list string :=
  omap (fun e => match e with Invoked f _ _ => Some f | _ => None end) (trace w).

Definition sent (w : World) : list MessagePayload :=
  omap (fun e => match e with ChanSend p => Some p | _ => None end) (trace w).

Definition emit (e : Effect) (w : World) : World :=
  {| clock := clock w; env := env w; drawn := drawn w; trace := trace w ++ [e] |}.

(** Result of a call that may loop: it returned, it is still looping when
    the fuel is spent, or it dereferenced a link to a cell that is not in
    the tree (which no registry built with [Handle] contains). *)
Inductive outcome (A : Type) : Type :=
| Returned (a : A) (w : World)
| Spinning (w : World)
| Fault (w : World).
Arguments Returned {A} a w.
Arguments Spinning {A} w.
Arguments Fault {A} w.

(** ** Logging *)

(** [h.log]: the record goes to the logger when the configured level
    lets it through ([h.logLevel >= lvl]). *)
Definition log (h : wsHandler) (lvl : level) (event : error)
    (data : list bodyItem) (w : World) : World :=
  if lvl <=? logLevel h then
    let logMsg := {| UUID := uuid_NewString rt (drawn w);
                     LogEvent := Errorf "%w" [OpErr event];
                     Level := lvl;
                     Module_ := "websockethandler";
                     Format := "";
                     Body := data |} in
    {| clock := clock w; env := env w; drawn := S (drawn w);
       trace := trace w ++ [LoggerPrint logMsg] |}
  else w.

(** [ParseLevel]; the zero [level] accompanies the error. *)
Definition ParseLevel (lvl : string) : level * option error :=
  let s := ToLower lvl in
  if String.eqb s "panic" then (panicLevel, None)
  else if String.eqb s "fatal" then (fatalLevel, None)
  else if String.eqb s "error" then (errorLevel, None)
  else if String.eqb s "warn" || String.eqb s "warning" then (warnLevel, None)
  else if String.eqb s "info" then (infoLevel, None)
  else if String.eqb s "debug" then (debugLevel, None)
  else if String.eqb s "trace" then (traceLevel, None)
  else (0, Some (Errorf "not a valid Level: %q" [OpStr lvl])).

(** ** Configuration: [NewHandler], [GetError], [SetLogLevel], [Handle] *)

Definition set_err (e : error) (h : wsHandler) : wsHandler :=
  {| fun_ := fun_ h; funcTree := funcTree h; logLevel := logLevel h;
     err := Some e |}.

Definition set_logLevel (l : level) (h : wsHandler) : wsHandler :=
  {| fun_ := fun_ h; funcTree := funcTree h; logLevel := l; err := err h |}.

Definition set_funcTree (t : gmap string wsHandlerTree) (h : wsHandler)
    : wsHandler :=
  {| fun_ := fun_ h; funcTree := t; logLevel := logLevel h; err := err h |}.

Definition set_fun (m : gmap WsFunc HandlerFunc) (h : wsHandler) : wsHandler :=
  {| fun_ := m; funcTree := funcTree h; logLevel := logLevel h; err := err h |}.

Definition set_children (c : option string) (n : wsHandlerTree) : wsHandlerTree :=
  {| main := main n; parent := parent n; children := c |}.

Definition set_parent (p : option string) (n : wsHandlerTree) : wsHandlerTree :=
  {| main := main n; parent := p; children := children n |}.

Definition new_tree (f : HandlerFunc) : wsHandlerTree :=
  {| main := f; parent := None; children := None |}.

Definition NewHandler (w : World) : wsHandler * World :=
  let handler := {| fun_ := ∅; funcTree := ∅; logLevel := infoLevel;
                    err := None |} in
  (handler, log handler infoLevel (Errorf "new handler is registered" []) [] w).

Definition GetError (h : wsHandler) : option error := err h.

Definition SetLogLevel (level : string) (h : wsHandler) (w : World)
    : wsHandler * World :=
  match err h with
  | None =>
      match ParseLevel level with
      | (_, Some e) =>
          (set_err (Errorf "%w:%s" [OpErr e; OpStr "SetLogLevel"]) h, w)
      | (lvl, None) =>
          let h := set_logLevel lvl h in
          (h, log h infoLevel
                (Errorf "change log level to %s" [OpStr level]) [] w)
      end
  | Some _ => (h, w)
  end.

(** [Handle], from [keyParent := ...] on (a parent was given and the cell
    of [f] is in the tree [h] already): link the two cells and register
    the key, or reject. *)
Definition Handle_link (meta : WsFunc) (f parentFunc : HandlerFunc)
    (h : wsHandler) : wsHandler :=
  let keyMain := repr f in
  let keyParent := repr parentFunc in
  match funcTree h !! keyParent with
  | Some parentHandlerTree =>
      match children parentHandlerTree with
      | Some _ =>
          set_err (Errorf "the parent function has a child function declaration:%s:%s:%s"
                     [OpStr keyMain; OpStr keyParent; OpStr name_Handle]) h
      | None =>
          (* parentHandlerTree.children = mainHandlerTree *)
          let t := alter (set_children (Some keyMain)) keyParent (funcTree h) in
          (* mainHandlerTree.parent = parentHandlerTree *)
          let t := alter (set_parent (Some keyParent)) keyMain t in
          set_fun (<[meta := f]> (fun_ h)) (set_funcTree t h)
      end
  | None =>
      set_err (Errorf "there is no registered parent function:%s:%s:%s"
                 [OpStr keyMain; OpStr keyParent; OpStr name_Handle]) h
  end.

(** [Handle]; [parent] is the variadic argument, of which only the first
    element is read. *)
Definition Handle (meta : WsFunc) (f : HandlerFunc) (parent : list HandlerFunc)
    (h : wsHandler) : wsHandler :=
  match err h with
  | None =>
      match fun_ h !! meta with
      | Some _ =>
          set_err (Errorf "func with current params has been registered" []) h
      | None =>
          match parent with
          | parentFunc :: _ =>
              let keyMain := repr f in
              match funcTree h !! keyMain with
              | Some mainHandlerTree =>
                  match children mainHandlerTree with
                  | Some _ =>
                      set_err (Errorf "the current function has a child function declaration" []) h
                  | None => Handle_link meta f parentFunc h
                  end
              | None =>
                  Handle_link meta f parentFunc
                    (set_funcTree (<[keyMain := new_tree f]> (funcTree h)) h)
              end
          | [] =>
              let keyMain := repr f in
              match funcTree h !! keyMain with
              | Some _ =>
                  set_err (Errorf "this function is declared:%s:%s"
                             [OpStr keyMain; OpStr name_Handle]) h
              | None =>
                  set_fun (<[meta := f]> (fun_ h))
                    (set_funcTree (<[keyMain := new_tree f]> (funcTree h)) h)
              end
          end
      end
  | Some _ => h
  end.

(** A configuration call, for sequences of them. *)
Inductive config_call : Type :=
| DoHandle (meta : WsFunc) (f : HandlerFunc) (parent : list HandlerFunc)
| DoSetLogLevel (level : string).

Definition configure (c : config_call) (hw : wsHandler * World)
    : wsHandler * World :=
  match c with
  | DoHandle meta f parent => (Handle meta f parent hw.1, hw.2)
  | DoSetLogLevel level => SetLogLevel level hw.1 hw.2
  end.

Definition configure_all (cs : list config_call) (hw : wsHandler * World)
    : wsHandler * World :=
  foldl (fun hw c => configure c hw) hw cs.

(** ** The invocation gate: [shell] *)

Inductive selected : Type := CaseDone | CaseAfter.

(** The [select] of [shell], evaluated at instant [t]: [<-ctx.Done()]
    against [<-time.After(d)].  The timer is created by the evaluation of
    the [select] itself, so it has not fired when the cases are polled: a
    context that is done already wins.  Otherwise the goroutine sleeps
    until the earlier of the two instants; the runtime chooses when they
    coincide.  The result is the case taken and the instant it is taken. *)
Definition select (ctx : Context) (t d : N) : selected * N :=
  let timer := t + d in
  match done_at ctx with
  | Some (td, _) =>
      if td <=? t then (CaseDone, t)
      else if td <? timer then (CaseDone, td)
      else if timer <? td then (CaseAfter, timer)
      else (if select_first rt timer then CaseDone else CaseAfter, timer)
  | None => (CaseAfter, timer)
  end.

(** [ctx.Err()] at instant [t]. *)
Definition Err (ctx : Context) (t : N) : option error :=
  match done_at ctx with
  | Some (td, e) => if td <=? t then Some e else None
  | None => None
  end.

Definition set_clock (t : N) (w : World) : World :=
  {| clock := t; env := env w; drawn := drawn w; trace := trace w |}.

(** The world after [f(ctx, data)] was called at [clock w] and returned [r]. *)
Definition after_call (f : HandlerFunc) (ctx : Context) (data : WsFuncData)
    (r : HandlerReturn) (w : World) : World :=
  {| clock := clock w + elapsed r; env := env_after r; drawn := drawn w;
     trace := trace w ++ [Invoked (repr f) ctx data] |}.

Definition timeout_data (data : WsFuncData) : WsFuncData :=
  {| Client := Client data;
     Payload := {| Event := Event (Payload data);
                   Data := istr "timeout reached";
                   Status := ErrorLevel;
                   Broadcast := false |} |}.

Inductive iteration (A : Type) : Type :=
| Return_ (a : A) (w : World)
| Again (w : World).
Arguments Return_ {A} a w.
Arguments Again {A} w.

(** The [time.After] case of [shell], taken at instant [t]: the handler
    is called, its error (if any) is logged, its data is returned. *)
Definition invoke (h : wsHandler) (f : HandlerFunc) (ctx : Context)
    (data : WsFuncData) (t : N) (w : World) : WsFuncData * World :=
  let w := set_clock t w in
  let r := call f ctx data t (env w) in
  let w := after_call f ctx data r w in
  (ret_data r,
   match ret_err r with
   | Some e =>
       log h errorLevel (Errorf "%w:%s" [OpErr e; OpStr name_shell])
         [BodyPayload (Payload data); BodyClient (Client data)] w
   | None => w
   end).

(** One turn of the [for] loop of [shell]. *)
Definition shell_iter (h : wsHandler) (f : HandlerFunc) (ctx : Context)
    (data : WsFuncData) (w : World) : iteration WsFuncData :=
  match select ctx (clock w) Millisecond with
  | (CaseDone, t) =>
      let w := set_clock t w in
      match Err ctx t with
      | Some DeadlineExceeded =>
          Return_ (timeout_data data)
            (log h errorLevel
               (Errorf "%w:%s" [OpErr DeadlineExceeded; OpStr name_shell])
               [BodyPayload (Payload data); BodyClient (Client data)] w)
      | _ => Again w
      end
  | (CaseAfter, t) =>
      let (d, w) := invoke h f ctx data t w in
      Return_ d w
  end.

(** [shell]: at most [fuel] turns of the loop. *)
Fixpoint shell (fuel : nat) (h : wsHandler) (f : HandlerFunc) (ctx : Context)
    (data : WsFuncData) (w : World) : outcome WsFuncData :=
  match fuel with
  | O => Spinning w
  | S fuel =>
      match shell_iter h f ctx data w with
      | Return_ d w => Returned d w
      | Again w => shell fuel h f ctx data w
      end
  end.

(** ** Dispatch: [CallFunc], [CallPipelineFunc] *)

Definition error_data (data : WsFuncData) : WsFuncData :=
  {| Client := inil;
     Payload := {| Event := Event (Payload data); Data := inil;
                   Status := ErrorLevel; Broadcast := false |} |}.

Definition CallFunc (fuel : nat) (h : wsHandler) (ctx : Context)
    (meta : WsFunc) (data : WsFuncData) (w : World)
    : outcome (WsFuncData * option error) :=
  let w := log h debugLevel
             (Errorf "in:%v:%v:%s" [OpMeta meta; OpData data; OpStr name_CallFunc])
             [] w in
  match fun_ h !! meta with
  | Some f =>
      match shell fuel h f ctx data w with
      | Returned d w =>
          let w := log h debugLevel
                     (Errorf "out:%v:%v:%s"
                        [OpMeta meta; OpData d; OpStr name_CallFunc]) [] w in
          Returned (d, None) w
      | Spinning w => Spinning w
      | Fault w => Fault w
      end
  | None =>
      Returned (error_data data,
                Some (Errorf "func with current params has not been registered:%v:%s"
                        [OpMeta meta; OpStr name_CallFunc])) w
  end.

(** The [for] loop of [CallPipelineFunc], at most [steps] turns, standing
    at the cell [f] of the tree.  Every turn calls [shell] on [data], the
    argument of [CallPipelineFunc]: the loop does not assign to it. *)
Fixpoint pipeline_loop (steps fuel : nat) (h : wsHandler) (ctx : Context)
    (f : wsHandlerTree) (data : WsFuncData) (w : World) : outcome unit :=
  match steps with
  | O => Spinning w
  | S steps =>
      let ctxWithTimeout := WithTimeout ctx (30 * Second) (clock w) in
      match shell fuel h (main f) ctxWithTimeout data w with
      | Returned d w =>
          let w := emit (ChanSend (Payload d)) w in
          if String.eqb (Status (Payload d)) ErrorLevel then Returned tt w
          else
            match children f with
            | Some c =>
                match funcTree h !! c with
                | Some f => pipeline_loop steps fuel h ctx f data w
                | None => Fault w
                end
            | None => Returned tt w
            end
      | Spinning w => Spinning w
      | Fault w => Fault w
      end
  end.

Definition CallPipelineFunc (fuel : nat) (h : wsHandler) (ctx : Context)
    (meta : WsFunc) (data : WsFuncData) (w : World) : outcome (option error) :=
  let w := log h debugLevel
             (Errorf "in:%v:%v:%s"
                [OpMeta meta; OpData data; OpStr name_CallPipelineFunc]) [] w in
  match fun_ h !! meta with
  | Some f =>
      let keyMain := repr f in
      match funcTree h !! keyMain with
      | Some f =>
          match pipeline_loop fuel fuel h ctx f data w with
          | Returned _ w => Returned None w
          | Spinning w => Spinning w
          | Fault w => Fault w
          end
      | None =>
          let w := emit (ChanSend {| Event := Event (Payload data); Data := inil;
                                     Status := ErrorLevel; Broadcast := false |}) w in
          Returned (Some (Errorf "func with current params has not been registered for pipeline:%v:%s"
                            [OpMeta meta; OpStr name_CallPipelineFunc])) w
      end
  | None =>
      let w := emit (ChanSend {| Event := Event (Payload data); Data := inil;
                                 Status := ErrorLevel; Broadcast := false |}) w in
      Returned (Some (Errorf "func with current params has not been registered:%v:%s"
                        [OpMeta meta; OpStr name_CallPipelineFunc])) w
  end.

End Model.

Arguments Returned {V Env A} a w.
Arguments Spinning {V Env A} w.
Arguments Fault {V Env A} w.
Arguments Return_ {V Env A} a w.
Arguments Again {V Env A} w.

(** ** Predicates on registries *)

Section Predicates.

Context {V Env : Type}.

(** The cell of [f] has a child already. *)
Definition has_own_child (h : @wsHandler V Env) (f : @HandlerFunc V Env) : Prop :=
  exists n c, funcTree h !! repr f = Some n /\ children n = Some c.

(** The cell of [f] has a parent already, and it is not the cell of [pf]. *)
Definition child_of_another (h : @wsHandler V Env) (f pf : @HandlerFunc V Env)
    : Prop :=
  exists n p, funcTree h !! repr f = Some n /\ parent n = Some p /\ p <> repr pf.

(** The call was refused and no cell of the tree changed. *)
Definition rejected_unchanged (h h' : @wsHandler V Env) : Prop :=
  err h' <> None /\ funcTree h' = funcTree h.

(** The error of [Handle] for a parent that has no cell in the tree. *)
Definition no_parent_error (f pf : @HandlerFunc V Env) : @error V :=
  Errorf "there is no registered parent function:%s:%s:%s"
    [OpStr (repr f); OpStr (repr pf); OpStr name_Handle].

(** Every registered handler has its cell in the tree; every cell is
    stored under the representation of its own handler; every child link
    and every parent link leads to a cell of the tree. *)
Definition closed (h : @wsHandler V Env) : Prop :=
  (forall meta f, fun_ h !! meta = Some f -> is_Some (funcTree h !! repr f)) /\
  (forall k n, funcTree h !! k = Some n -> repr (main n) = k) /\
  (forall k n c, funcTree h !! k = Some n -> children n = Some c ->
                 is_Some (funcTree h !! c)) /\
  (forall k n p, funcTree h !! k = Some n -> parent n = Some p ->
                 is_Some (funcTree h !! p)).

(** The context is not done at instant [t] or before. *)
Definition alive_until (ctx : @Context V) (t : N) : Prop :=
  match done_at ctx with
  | Some (td, _) => t < td
  | None => True
  end.

(** The gate started at instant [t] on [ctx] leaves its loop: the context
    is never done, or is done by its deadline, or is done only after the
    grace interval. *)
Definition gate_passes (ctx : @Context V) (t : N) : Prop :=
  match done_at ctx with
  | Some (td, e) => is_DeadlineExceeded e = true \/ t + Millisecond < td
  | None => True
  end.

(** The record that [log] hands to the logger in world [w]. *)
Definition log_record (rt : Runtime) (lvl : level) (event : @error V)
    (data : list (@bodyItem V)) (w : @World V Env) : @strLog V :=
  {| UUID := uuid_NewString rt (drawn w);
     LogEvent := Errorf "%w" [OpErr event];
     Level := lvl;
     Module_ := "websockethandler";
     Format := "";
     Body := data |}.

(** The payload that the dispatchers make up for a key that is not
    registered. *)
Definition miss_payload (data : @WsFuncData V) : @MessagePayload V :=
  {| Event := Event (Payload data); Data := inil; Status := ErrorLevel;
     Broadcast := false |}.

(** The two other errors of [Handle] that the properties below name. *)
Definition duplicate_key_error : @error V :=
  Errorf "func with current params has been registered" [].

Definition declared_error (f : @HandlerFunc V Env) : @error V :=
  Errorf "this function is declared:%s:%s" [OpStr (repr f); OpStr name_Handle].

(** The world in which a call stands, whatever its outcome. *)
Definition world_of {A : Type} (o : @outcome V Env A) : @World V Env :=
  match o with
  | Returned _ w => w
  | Spinning w => w
  | Fault w => w
  end.

(** The data that the handlers were invoked with, in order. *)
Definition invoked_with (w : @World V Env) : list (@WsFuncData V) :=
  omap (fun e => match e with Invoked _ _ d => Some d | _ => None end) (trace w).

End Predicates.

(** ** Sample values *)

Module Samples.

Definition rt : Runtime :=
  {| uuid_NewString := fun _ => "00000000-0000-4000-8000-000000000000";
     select_first := fun _ => true |}.

Definition w0 : @World unit unit :=
  {| clock := 0; env := tt; drawn := 0; trace := [] |}.

(** A handler that answers with status [st] and the error [e], in 5 ns. *)
Definition answer (name st : string) (e : option (@error unit))
    : @HandlerFunc unit unit :=
  {| repr := name;
     call := fun _ d _ u =>
       {| ret_data := {| Client := Client d;
                         Payload := {| Event := Event (Payload d);
                                       Data := istr name;
                                       Status := st;
                                       Broadcast := false |} |};
          ret_err := e; elapsed := 5; env_after := u |} |}.

Definition key (ev : string) : WsFunc := {| fEvent := ev; fStatus := "" |}.

Definition ping : @WsFuncData unit :=
  {| Client := inil;
     Payload := {| Event := "ping"; Data := inil; Status := "";
                   Broadcast := false |} |}.

Definition fresh : @wsHandler unit unit := (NewHandler rt w0).1.

(** A context whose deadline passed at instant 0, and one cancelled then. *)
Definition expired : @Context unit :=
  {| done_at := Some (0, DeadlineExceeded) |}.
Definition cancelled : @Context unit := {| done_at := Some (0, Canceled) |}.

Definition background : @Context unit := Background.

Definition boom : @error unit := Errorf "boom" [].
Definition failing := answer "failing" "ok" (Some boom).

Definition f1 := answer "f1" "ok" None.
Definition f2 := answer "f2" "error" None.
Definition f3 := answer "f3" "ok" None.

(** The same key registered twice: the second call sets the error. *)
Definition twice : @wsHandler unit unit :=
  Handle (key "a") f1 [] (Handle (key "a") f1 [] fresh).

(** One handler registered, without a parent. *)
Definition single : @wsHandler unit unit := Handle (key "a") f1 [] fresh.

Definition P1 := answer "P1" "ok" None.
Definition P2 := answer "P2" "ok" None.
Definition F := answer "F" "ok" None.
Definition G := answer "G" "ok" None.

(** [F] registered as the child of [P1]; [P2] is a second root. *)
Definition one_link : @wsHandler unit unit :=
  Handle (key "f") F [P1]
    (Handle (key "p2") P2 [] (Handle (key "p1") P1 [] fresh)).

(** [G] registered as the child of [F] on top of that. *)
Definition two_links : @wsHandler unit unit :=
  Handle (key "g") G [F] one_link.

(** A handler that takes [secs] seconds to answer with status [st]. *)
Definition sleeper (name st : string) (secs : N) : @HandlerFunc unit unit :=
  {| repr := name;
     call := fun _ d _ u =>
       {| ret_data := {| Client := Client d;
                         Payload := {| Event := Event (Payload d);
                                       Data := istr name;
                                       Status := st;
                                       Broadcast := false |} |};
          ret_err := None; elapsed := secs * Second; env_after := u |} |}.

Definition slow := sleeper "slow" "ok" 31.

(** Two functions with one representation (two closures of one function
    literal): they answer with different data. *)
Definition closure_a := answer "closure" "ok" None.
Definition closure_b : @HandlerFunc unit unit :=
  {| repr := "closure";
     call := fun _ d _ u =>
       {| ret_data := {| Client := Client d;
                         Payload := {| Event := Event (Payload d);
                                       Data := istr "b";
                                       Status := "ok";
                                       Broadcast := false |} |};
          ret_err := None; elapsed := 5; env_after := u |} |}.

(** One slow handler registered, without a parent. *)
Definition single_slow : @wsHandler unit unit := Handle (key "s") slow [] fresh.

End Samples.

(** * Properties *)

Section Properties.

Context {V Env : Type}.
Variable rt : Runtime.

Local Abbreviation wsHandler := (@wsHandler V Env).
Local Abbreviation wsHandlerTree := (@wsHandlerTree V Env).
Local Abbreviation World := (@World V Env).
Local Abbreviation HandlerFunc := (@HandlerFunc V Env).
Local Abbreviation Context := (@Context V).
Local Abbreviation WsFuncData := (@WsFuncData V).
Local Abbreviation error := (@error V).

(** ** Strings *)

Lemma lower_byte_idem c : lower_byte (lower_byte c) = lower_byte c.
Proof.
  destruct c as [[] [] [] [] [] [] [] []]; reflexivity.
Qed.

Lemma is_byte_lower_high c n :
  128 <= n -> is_byte (lower_byte c) n = is_byte c n.
Proof.
  intros Hn. unfold is_byte, lower_byte.
  destruct ((65 <=? N_of_ascii c) && (N_of_ascii c <=? 90)) eqn:E; [|done].
  apply andb_prop in E as [H1%N.leb_le H2%N.leb_le].
  rewrite N_ascii_embedding by lia.
  apply eq_trans with false; [|symmetry]; apply N.eqb_neq; lia.
Qed.

Lemma ToLower_3 c1 c2 c3 s :
  ToLower (String c1 (String c2 (String c3 s))) =
  if is_byte c1 196 && is_byte c2 176 then String "i" (ToLower (String c3 s))
  else if is_byte c1 226 && is_byte c2 132 && is_byte c3 170
       then String "k" (ToLower s)
       else String (lower_byte c1) (ToLower (String c2 (String c3 s))).
Proof. reflexivity. Qed.

(** [ToLower] reads its argument through [lower_byte] only. *)
Lemma ToLower_lower_bytes s : ToLower (map_bytes lower_byte s) = ToLower s.
Proof.
  assert (H : forall n s, (String.length s <= n)%nat ->
              ToLower (map_bytes lower_byte s) = ToLower s).
  { clear s. induction n as [|n IH]; intros s Hs.
    - destruct s; simpl in Hs; [done | lia].
    - destruct s as [|c1 [|c2 [|c3 s]]]; simpl in Hs.
      + done.
      + simpl. by rewrite lower_byte_idem.
      + simpl. rewrite !is_byte_lower_high, !lower_byte_idem by lia.
        by destruct (is_byte c1 196 && is_byte c2 176).
      + pose proof (IH (String c2 (String c3 s))) as IH2.
        pose proof (IH (String c3 s)) as IH1.
        pose proof (IH s) as IH0.
        cbn [map_bytes] in *.
        rewrite (ToLower_3 (lower_byte c1)), (ToLower_3 c1).
        rewrite !is_byte_lower_high, lower_byte_idem, IH2, IH1, IH0
          by (simpl; lia).
        reflexivity. }
  by apply (H (String.length s)).
Qed.

Lemma ToLower_fold s s' :
  map_bytes lower_byte s = map_bytes lower_byte s' -> ToLower s = ToLower s'.
Proof.
  intros H. by rewrite <- (ToLower_lower_bytes s), H, ToLower_lower_bytes.
Qed.

(** ** [ParseLevel] *)

Lemma ParseLevel_invalid (s : string) :
  ToLower s ∉ level_names ->
  @ParseLevel V s = (0, Some (Errorf "not a valid Level: %q" [OpStr s])).
Proof.
  intros Hn. unfold ParseLevel.
  repeat match goal with
  | |- context [String.eqb ?a ?b] =>
      destruct (String.eqb_spec a b) as [Heq|_];
      [exfalso; apply Hn; rewrite Heq; unfold level_names; set_solver|]
  end.
  reflexivity.
Qed.

Lemma ParseLevel_valid (s : string) :
  ToLower s ∈ level_names -> (@ParseLevel V s).2 = None.
Proof.
  intros Hin. unfold ParseLevel, level_names in *.
  repeat (apply elem_of_cons in Hin as [->|Hin]; [reflexivity|]).
  by apply elem_of_nil in Hin.
Qed.

(** C8.  ParseLevel does not see the case of ASCII letters: two strings
    with the same bytes up to that case get the same level and fail
    together.  "WARN" and "warning" parse to the warn level.  A string
    whose lower case is none of the spellings of the seven levels (panic,
    fatal, error, warn or warning, info, debug, trace) fails, with the zero
    level and an error whose operand is the input itself; so the errors
    of two different invalid inputs differ. *)
Theorem ParseLevel_case_insensitive :
  (forall s s' : string,
      map_bytes lower_byte s = map_bytes lower_byte s' ->
      (@ParseLevel V s).1 = (@ParseLevel V s').1 /\
      ((@ParseLevel V s).2 = None <-> (@ParseLevel V s').2 = None)) /\
  @ParseLevel V "WARN" = (warnLevel, None) /\
  @ParseLevel V "warning" = (warnLevel, None) /\
  (forall s : string,
      ToLower s ∉ level_names ->
      @ParseLevel V s = (0, Some (Errorf "not a valid Level: %q" [OpStr s]))) /\
  (forall s s' : string,
      ToLower s ∉ level_names -> ToLower s' ∉ level_names ->
      (@ParseLevel V s).2 = (@ParseLevel V s').2 -> s = s').
Proof.
  split; [|split; [reflexivity|split; [reflexivity|split]]].
  - intros s s' H%ToLower_fold. unfold ParseLevel. rewrite H.
    repeat match goal with
    | |- context [String.eqb ?a ?b] => destruct (String.eqb a b); simpl
    end; (split; [reflexivity|]); split; (reflexivity || discriminate).
  - apply ParseLevel_invalid.
  - intros s s' Hs Hs'. rewrite !ParseLevel_invalid by done. simpl. congruence.
Qed.

(** ** The sticky error state *)

Lemma Handle_sticky (h : wsHandler) e meta f parent :
  err h = Some e -> Handle meta f parent h = h.
Proof. intros H. unfold Handle. by rewrite H. Qed.

Lemma SetLogLevel_sticky (h : wsHandler) e level (w : World) :
  err h = Some e -> SetLogLevel rt level h w = (h, w).
Proof. intros H. unfold SetLogLevel. by rewrite H. Qed.

Lemma configure_sticky (h : wsHandler) e c (w : World) :
  err h = Some e -> configure rt c (h, w) = (h, w).
Proof.
  intros H. destruct c; simpl.
  - by rewrite (Handle_sticky h e).
  - by apply SetLogLevel_sticky with e.
Qed.

Lemma configure_all_sticky (h : wsHandler) e cs (w : World) :
  err h = Some e -> configure_all rt cs (h, w) = (h, w).
Proof.
  intros H. unfold configure_all.
  induction cs as [|c cs IH]; simpl; [done|].
  by rewrite (configure_sticky h e).
Qed.

(** C4.  Once [err] is set, a call of Handle or SetLogLevel, and any
    sequence of such calls, returns the registry as it was (handler map,
    tree, log level and error) and hands nothing to the logger; GetError
    returns the stored error, also after those calls. *)
Theorem error_state_is_sticky (h : wsHandler) (e : error) :
  err h = Some e ->
  (forall meta f parent, Handle meta f parent h = h) /\
  (forall level (w : World), SetLogLevel rt level h w = (h, w)) /\
  (forall cs (w : World), configure_all rt cs (h, w) = (h, w)) /\
  GetError h = Some e /\
  (forall cs (w : World), GetError (configure_all rt cs (h, w)).1 = Some e).
Proof.
  intros H. repeat split.
  - intros. by apply Handle_sticky with e.
  - intros. by apply SetLogLevel_sticky with e.
  - intros. by apply configure_all_sticky with e.
  - done.
  - intros. by rewrite (configure_all_sticky h e).
Qed.

(** ** An invariant of configuration: the tree is closed *)

Lemma closed_set_err (h : wsHandler) e : closed h -> closed (set_err e h).
Proof. done. Qed.

Lemma closed_new_cell (h : wsHandler) f :
  funcTree h !! repr f = None -> closed h ->
  closed (set_funcTree (<[repr f:=new_tree f]> (funcTree h)) h).
Proof.
  intros Hn (H1 & H2 & H3 & H4). repeat split; simpl.
  - intros meta g Hg. apply lookup_insert_is_Some'. right. by apply H1 with meta.
  - intros k n Hk. apply lookup_insert_Some in Hk as [[<- <-]|[_ Hk]]; [done|].
    by apply H2.
  - intros k n c Hk Hc. apply lookup_insert_is_Some'. right.
    apply lookup_insert_Some in Hk as [[<- <-]|[_ Hk]]; [done|].
    by apply H3 with k n.
  - intros k n p Hk Hp. apply lookup_insert_is_Some'. right.
    apply lookup_insert_Some in Hk as [[<- <-]|[_ Hk]]; [done|].
    by apply H4 with k n.
Qed.

(** A cell after the two field writes of [Handle_link] is the cell before
    them, up to the fields written. *)
Lemma linked_cell (t : gmap string wsHandlerTree) keyMain keyParent k n :
  alter (set_parent (Some keyParent)) keyMain
    (alter (set_children (Some keyMain)) keyParent t) !! k = Some n ->
  exists n0, t !! k = Some n0 /\ main n = main n0 /\
    (children n = children n0 \/ (k = keyParent /\ children n = Some keyMain)) /\
    (parent n = parent n0 \/ (k = keyMain /\ parent n = Some keyParent)).
Proof.
  intros Hk.
  apply lookup_alter_Some in Hk as [(<- & n1 & Hk & ->)|[_ Hk]];
    apply lookup_alter_Some in Hk as [(<- & n0 & Hk & ->)|[_ Hk]];
    eexists; (split; [exact Hk|]); simpl; auto.
Qed.

Lemma closed_Handle_link (h : wsHandler) meta f pf :
  is_Some (funcTree h !! repr f) -> closed h ->
  closed (Handle_link meta f pf h).
Proof.
  intros Hf (H1 & H2 & H3 & H4). unfold Handle_link.
  destruct (funcTree h !! repr pf) as [np|] eqn:Hp; [|done].
  destruct (children np); [done|].
  repeat split; simpl.
  - intros meta' g Hg. rewrite !lookup_alter_is_Some.
    apply lookup_insert_Some in Hg as [[_ <-]|[_ Hg]]; [done|].
    by apply H1 with meta'.
  - intros k n Hk. apply linked_cell in Hk as (n0 & Hk & -> & _).
    by apply H2.
  - intros k n c Hk Hc. rewrite !lookup_alter_is_Some.
    apply linked_cell in Hk as (n0 & Hk & _ & [E|[_ E]] & _);
      rewrite E in Hc.
    + by apply H3 with k n0.
    + injection Hc as Hc. by rewrite <- Hc.
  - intros k n p Hk Hq. rewrite !lookup_alter_is_Some.
    apply linked_cell in Hk as (n0 & Hk & _ & _ & [E|[_ E]]);
      rewrite E in Hq.
    + by apply H4 with k n0.
    + injection Hq as Hq. rewrite <- Hq, Hp. by eexists.
Qed.

Lemma closed_Handle (h : wsHandler) meta f parent :
  closed h -> closed (Handle meta f parent h).
Proof.
  intros Hc. unfold Handle.
  destruct (err h); [done|].
  destruct (fun_ h !! meta); [done|].
  destruct parent as [|pf rest].
  - destruct (funcTree h !! repr f) eqn:Hn; [done|].
    destruct (closed_new_cell h f Hn Hc) as (H1 & H2 & H3 & H4).
    repeat split; simpl; [|exact H2|exact H3|exact H4].
    intros meta' g Hg.
    apply lookup_insert_Some in Hg as [[_ <-]|[_ Hg]].
    + rewrite lookup_insert_eq. by eexists.
    + by apply (H1 meta').
  - destruct (funcTree h !! repr f) as [n|] eqn:Hn.
    + destruct (children n); [done|].
      apply closed_Handle_link; [by rewrite Hn|done].
    + apply closed_Handle_link; [|by apply closed_new_cell].
      simpl. rewrite lookup_insert_eq. by eexists.
Qed.

Lemma closed_configure_all cs (h : wsHandler) (w : World) :
  closed h -> closed (configure_all rt cs (h, w)).1.
Proof.
  unfold configure_all. revert h w.
  induction cs as [|c cs IH]; intros h w Hc; simpl; [done|].
  destruct c as [meta f parent|level]; simpl.
  - apply IH. by apply closed_Handle.
  - destruct (SetLogLevel rt level h w) as [h' w'] eqn:E. apply IH.
    revert E. unfold SetLogLevel.
    destruct (err h); [by intros [= <- _]|].
    destruct (ParseLevel level) as [l [e|]]; by intros [= <- _].
Qed.

(** Every registry obtained from [NewHandler] by configuration calls is
    closed. *)
Lemma closed_configured cs (w w' : World) :
  closed (configure_all rt cs ((NewHandler rt w).1, w')).1.
Proof.
  apply closed_configure_all. repeat split; simpl.
  - intros meta f Hf. by rewrite lookup_empty in Hf.
  - intros k n Hk. by rewrite lookup_empty in Hk.
  - intros k n c Hk. by rewrite lookup_empty in Hk.
  - intros k n p Hk. by rewrite lookup_empty in Hk.
Qed.

(** ** Rejections of [Handle] *)

(** C1 (amended).  For every registry state, Handle with a parent
    argument, for a handler whose cell already has its own child, leaves
    the error state set and changes nothing else: the tree (so every
    parent and child link), the handler map and the log level are as
    before. *)
Theorem Handle_rejects_node_with_child (h : wsHandler) meta f pf rest :
  has_own_child h f ->
  rejected_unchanged h (Handle meta f (pf :: rest) h) /\
  fun_ (Handle meta f (pf :: rest) h) = fun_ h /\
  logLevel (Handle meta f (pf :: rest) h) = logLevel h.
Proof.
  intros (n & c & Hn & Hc). unfold rejected_unchanged, Handle.
  destruct (err h) eqn:He; [by rewrite He|].
  destruct (fun_ h !! meta); [done|].
  by rewrite Hn, Hc.
Qed.

(** C10.  When Handle (called on a registry without error) ends with
    the error for a parent that has no cell in the tree, the handler map
    is as before; if the handler had no cell before the call, the tree is
    the old one with a new cell for it (no parent, no child) stored under
    its representation, and that cell is still there after any further
    configuration calls; if it had a cell, the tree is as before. *)
Theorem Handle_missing_parent_keeps_new_node (h : wsHandler) meta f pf rest :
  err h = None ->
  err (Handle meta f (pf :: rest) h) = Some (no_parent_error f pf) ->
  fun_ (Handle meta f (pf :: rest) h) = fun_ h /\
  (funcTree h !! repr f = None ->
     funcTree (Handle meta f (pf :: rest) h)
       = <[repr f := new_tree f]> (funcTree h) /\
     forall cs (w : World),
       funcTree (configure_all rt cs (Handle meta f (pf :: rest) h, w)).1
         !! repr f = Some (new_tree f)) /\
  (is_Some (funcTree h !! repr f) ->
     funcTree (Handle meta f (pf :: rest) h) = funcTree h).
Proof.
  intros He Hrej.
  assert (Hshape :
    fun_ (Handle meta f (pf :: rest) h) = fun_ h /\
    (funcTree h !! repr f = None ->
       funcTree (Handle meta f (pf :: rest) h)
         = <[repr f := new_tree f]> (funcTree h)) /\
    (is_Some (funcTree h !! repr f) ->
       funcTree (Handle meta f (pf :: rest) h) = funcTree h)).
  { revert Hrej. unfold Handle, no_parent_error. rewrite He.
    destruct (fun_ h !! meta); [discriminate|].
    destruct (funcTree h !! repr f) as [n|] eqn:Hn.
    - destruct (children n); [discriminate|].
      unfold Handle_link.
      destruct (funcTree h !! repr pf) as [np|].
      + destruct (children np); simpl; [discriminate|].
        rewrite He. discriminate.
      + intros _. simpl. split; [done|]. split; [done|]. done.
    - unfold Handle_link. cbn [funcTree set_funcTree].
      destruct (<[repr f:=new_tree f]> (funcTree h) !! repr pf) as [np|].
      + destruct (children np); simpl; [discriminate|].
        rewrite He. discriminate.
      + intros _. simpl. split; [done|]. split; [done|].
        intros [? ?]; discriminate. }
  destruct Hshape as (Hf & Hnew & Hold).
  split; [done|]. split; [|done].
  intros Hn. split; [by apply Hnew|].
  intros cs w.
  rewrite (configure_all_sticky _ (no_parent_error f pf)) by done.
  simpl. rewrite Hnew by done. apply lookup_insert_eq.
Qed.

(** ** Effects of logging and sending *)

Lemma set_clock_same (w : World) : set_clock (clock w) w = w.
Proof. by destruct w. Qed.

Lemma log_trace (h : wsHandler) lvl ev body (w : World) :
  trace (log rt h lvl ev body w) =
  trace w ++ (if lvl <=? logLevel h
              then [LoggerPrint (log_record rt lvl ev body w)] else []).
Proof.
  unfold log, log_record. destruct (lvl <=? logLevel h); simpl; [done|].
  by rewrite app_nil_r.
Qed.

Lemma log_clock (h : wsHandler) lvl ev body (w : World) :
  clock (log rt h lvl ev body w) = clock w.
Proof. unfold log. by destruct (lvl <=? logLevel h). Qed.

Lemma log_env (h : wsHandler) lvl ev body (w : World) :
  env (log rt h lvl ev body w) = env w.
Proof. unfold log. by destruct (lvl <=? logLevel h). Qed.

Lemma log_invocations (h : wsHandler) lvl ev body (w : World) :
  invocations (log rt h lvl ev body w) = invocations w.
Proof.
  unfold invocations. rewrite log_trace, omap_app.
  destruct (lvl <=? logLevel h); simpl; by rewrite app_nil_r.
Qed.

Lemma log_sent (h : wsHandler) lvl ev body (w : World) :
  sent (log rt h lvl ev body w) = sent w.
Proof.
  unfold sent. rewrite log_trace, omap_app.
  destruct (lvl <=? logLevel h); simpl; by rewrite app_nil_r.
Qed.

Lemma log_printed (h : wsHandler) lvl ev body (w : World) :
  printed (log rt h lvl ev body w) =
  printed w ++ (if lvl <=? logLevel h
                then [log_record rt lvl ev body w] else []).
Proof.
  unfold printed. rewrite log_trace, omap_app.
  by destruct (lvl <=? logLevel h).
Qed.

Lemma emit_send_sent p (w : World) :
  sent (emit (ChanSend p) w) = sent w ++ [p].
Proof. unfold sent, emit. simpl. by rewrite omap_app. Qed.

Lemma emit_send_invocations p (w : World) :
  invocations (emit (ChanSend p) w) = invocations w.
Proof.
  unfold invocations, emit. simpl. rewrite omap_app. simpl.
  by rewrite app_nil_r.
Qed.

Lemma invoke_invocations (h : wsHandler) f ctx data t (w : World) :
  invocations (invoke rt h f ctx data t w).2 = invocations w ++ [repr f].
Proof.
  unfold invoke. cbn [snd].
  destruct (ret_err _); [rewrite log_invocations|];
    unfold invocations, after_call; simpl; by rewrite omap_app.
Qed.

Lemma invoke_sent (h : wsHandler) f ctx data t (w : World) :
  sent (invoke rt h f ctx data t w).2 = sent w.
Proof.
  unfold invoke. cbn [snd].
  destruct (ret_err _); [rewrite log_sent|];
    unfold sent, after_call; simpl; rewrite omap_app; simpl;
    by rewrite app_nil_r.
Qed.

Lemma invoke_data (h : wsHandler) f ctx data t (w : World) :
  (invoke rt h f ctx data t w).1 = ret_data (call f ctx data t (env w)).
Proof. reflexivity. Qed.

Lemma invoke_clock (h : wsHandler) f ctx data t (w : World) :
  clock (invoke rt h f ctx data t w).2
  = t + elapsed (call f ctx data t (env w)).
Proof.
  unfold invoke. cbn [snd]. destruct (ret_err _); [rewrite log_clock|]; done.
Qed.

Lemma invoke_env (h : wsHandler) f ctx data t (w : World) :
  env (invoke rt h f ctx data t w).2
  = env_after (call f ctx data t (env w)).
Proof.
  unfold invoke. cbn [snd]. destruct (ret_err _); [rewrite log_env|]; done.
Qed.

(** ** The [select] of the gate *)

Lemma select_done_already (ctx : Context) t d td e :
  done_at ctx = Some (td, e) -> td <= t -> select rt ctx t d = (CaseDone, t).
Proof.
  intros H Hle. unfold select. rewrite H.
  by destruct (N.leb_spec td t); [|lia].
Qed.

Lemma select_done_early (ctx : Context) t d td e :
  done_at ctx = Some (td, e) -> td < t + d ->
  select rt ctx t d = (CaseDone, N.max t td).
Proof.
  intros H Hlt. unfold select. rewrite H.
  destruct (N.leb_spec td t); [f_equal; lia|].
  destruct (N.ltb_spec td (t + d)); [f_equal; lia|lia].
Qed.

Lemma select_after (ctx : Context) t d :
  alive_until ctx (t + d) -> select rt ctx t d = (CaseAfter, t + d).
Proof.
  unfold alive_until, select. destruct (done_at ctx) as [[td e]|]; [|done].
  intros H.
  destruct (N.leb_spec td t); [lia|].
  destruct (N.ltb_spec td (t + d)); [lia|].
  by destruct (N.ltb_spec (t + d) td); [|lia].
Qed.

Lemma alive_WithTimeout (ctx : Context) t :
  alive_until ctx (t + Millisecond) ->
  alive_until (WithTimeout ctx (30 * Second) t) (t + Millisecond).
Proof.
  unfold alive_until, WithTimeout.
  destruct (done_at ctx) as [[td e]|]; simpl.
  - intros H. destruct (td <=? t + 30 * Second); simpl; [done|].
    unfold Second, Millisecond, Nanosecond. lia.
  - intros _. unfold Second, Millisecond, Nanosecond. lia.
Qed.

Lemma Err_done (ctx : Context) t td e :
  done_at ctx = Some (td, e) -> td <= t -> Err ctx t = Some e.
Proof.
  intros H Hle. unfold Err. rewrite H. by destruct (N.leb_spec td t); [|lia].
Qed.

(** ** The gate *)

Lemma shell_after (h : wsHandler) f (ctx : Context) data (w : World) t fuel :
  select rt ctx (clock w) Millisecond = (CaseAfter, t) ->
  shell rt (S fuel) h f ctx data w
  = Returned (invoke rt h f ctx data t w).1 (invoke rt h f ctx data t w).2.
Proof.
  intros H. cbn [shell]. unfold shell_iter. rewrite H.
  by destruct (invoke rt h f ctx data t w).
Qed.

Lemma shell_deadline (h : wsHandler) f (ctx : Context) data (w : World) t fuel :
  select rt ctx (clock w) Millisecond = (CaseDone, t) ->
  Err ctx t = Some DeadlineExceeded ->
  shell rt (S fuel) h f ctx data w
  = Returned (timeout_data data)
      (log rt h errorLevel
         (Errorf "%w:%s" [OpErr DeadlineExceeded; OpStr name_shell])
         [BodyPayload (Payload data); BodyClient (Client data)]
         (set_clock t w)).
Proof.
  intros H HE. cbn [shell]. unfold shell_iter. by rewrite H, HE.
Qed.

(** The gate leaves its loop at the first turn when [gate_passes]. *)
Lemma shell_returns (h : wsHandler) f (ctx : Context) data (w : World) fuel :
  gate_passes ctx (clock w) ->
  exists d w', shell rt (S fuel) h f ctx data w = Returned d w'.
Proof.
  unfold gate_passes. intros Hp.
  destruct (select rt ctx (clock w) Millisecond) as [[] t] eqn:Hsel.
  - destruct (done_at ctx) as [[td e]|] eqn:Hd.
    + assert (Ht : td <= t).
      { revert Hsel. unfold select. rewrite Hd.
        destruct (N.leb_spec td (clock w)); [intros [= <-]; lia|].
        destruct (N.ltb_spec td (clock w + Millisecond)); [intros [= <-]; lia|].
        destruct (N.ltb_spec (clock w + Millisecond) td); [discriminate|].
        intros [= _ <-]. lia. }
      destruct Hp as [Hp|Hp].
      * destruct e; try discriminate.
        eexists _, _. apply shell_deadline; [done|]. by apply Err_done with td.
      * exfalso. revert Hsel. unfold select. rewrite Hd.
        destruct (N.leb_spec td (clock w)); [lia|].
        destruct (N.ltb_spec td (clock w + Millisecond)); [lia|].
        by destruct (N.ltb_spec (clock w + Millisecond) td); [|lia].
    + revert Hsel. unfold select. by rewrite Hd.
  - eexists _, _. by apply shell_after.
Qed.

(** C3.  When the deadline of the context has expired by the time the
    gate starts ([Done] closed with [DeadlineExceeded] at or before the
    clock), the gate returns at its first turn the payload made up from
    the input: same event name, status "error", data "timeout reached"
    (and the client of the input).  Its only effect is the call of [log] at
    error level, which hands one record of that level to the logger
    whenever the configured level allows error records (it does by
    default); the handler is not invoked and nothing is sent. *)
Theorem shell_deadline_expired (h : wsHandler) (f : HandlerFunc)
    (ctx : Context) (data : WsFuncData) (w : World) (td : N) (fuel : nat) :
  done_at ctx = Some (td, DeadlineExceeded) ->
  td <= clock w ->
  let event := Errorf "%w:%s" [OpErr DeadlineExceeded; OpStr name_shell] in
  let body := [BodyPayload (Payload data); BodyClient (Client data)] in
  let w' := log rt h errorLevel event body w in
  shell rt (S fuel) h f ctx data w = Returned (timeout_data data) w' /\
  Event (Payload (timeout_data data)) = Event (Payload data) /\
  Status (Payload (timeout_data data)) = ErrorLevel /\
  Data (Payload (timeout_data data)) = istr "timeout reached" /\
  invocations w' = invocations w /\
  sent w' = sent w /\
  (errorLevel <= logLevel h ->
   printed w' = printed w ++ [log_record rt errorLevel event body w]) /\
  Level (log_record rt errorLevel event body w) = errorLevel.
Proof.
  intros Hd Hle event body w'. subst w'.
  split.
  - rewrite (shell_deadline h f ctx data w (clock w)).
    + by rewrite set_clock_same.
    + by apply select_done_already with td DeadlineExceeded.
    + by apply Err_done with td.
  - repeat split; try reflexivity.
    + apply log_invocations.
    + apply log_sent.
    + intros Hl. rewrite log_printed.
      by destruct (N.leb_spec errorLevel (logLevel h)); [|lia].
Qed.

(** C7.  The gate has one result, the data (its Go signature has no error
    result).  When its [select] takes the [time.After] case, the handler
    is invoked once, at that instant; if it returns a non-nil error, the
    gate calls [log] at error level with that error wrapped (one record of
    that level reaches the logger whenever the configured level allows
    error records) and returns the data that the handler returned, as
    it is. *)
Theorem shell_returns_handler_data (h : wsHandler) (f : HandlerFunc)
    (ctx : Context) (data : WsFuncData) (w : World) (t : N) (e : error)
    (fuel : nat) :
  select rt ctx (clock w) Millisecond = (CaseAfter, t) ->
  let r := call f ctx data t (env w) in
  ret_err r = Some e ->
  let event := Errorf "%w:%s" [OpErr e; OpStr name_shell] in
  let body := [BodyPayload (Payload data); BodyClient (Client data)] in
  let w1 := after_call f ctx data r (set_clock t w) in
  let w' := log rt h errorLevel event body w1 in
  shell rt (S fuel) h f ctx data w = Returned (ret_data r) w' /\
  invocations w' = invocations w ++ [repr f] /\
  sent w' = sent w /\
  (errorLevel <= logLevel h ->
   printed w' = printed w ++ [log_record rt errorLevel event body w1]) /\
  Level (log_record rt errorLevel event body w1) = errorLevel.
Proof.
  intros Hsel r He event body w1 w'.
  assert (Hinv : invoke rt h f ctx data t w = (ret_data r, w')).
  { unfold invoke. fold r. cbn zeta. simpl env. fold r. by rewrite He. }
  split.
  - rewrite (shell_after h f ctx data w t) by done. by rewrite Hinv.
  - split; [|split; [|split; [|reflexivity]]].
    + change w' with (ret_data r, w').2. rewrite <- Hinv.
      apply invoke_invocations.
    + change w' with (ret_data r, w').2. rewrite <- Hinv. apply invoke_sent.
    + intros Hl. subst w'. rewrite log_printed.
      destruct (N.leb_spec errorLevel (logLevel h)); [|lia].
      f_equal. unfold printed, w1, after_call. simpl.
      rewrite omap_app. simpl. by rewrite app_nil_r.
Qed.

(** C9.  When the context is done before the grace interval has elapsed,
    with an error other than [DeadlineExceeded] (that is, [Canceled]), no
    number of turns makes the gate return: every turn takes the [Done]
    case and falls through.  The handler is not invoked, nothing is
    logged or sent, the environment is untouched: the trace after any
    number of turns is the trace at the start. *)
Theorem shell_spins_when_cancelled (h : wsHandler) (f : HandlerFunc)
    (ctx : Context) (data : WsFuncData) (w : World) (td : N) (e : error) :
  done_at ctx = Some (td, e) ->
  is_DeadlineExceeded e = false ->
  td < clock w + Millisecond ->
  forall fuel : nat,
    exists w', shell rt fuel h f ctx data w = Spinning w' /\
               trace w' = trace w /\ env w' = env w /\
               invocations w' = invocations w /\
               sent w' = sent w /\ printed w' = printed w.
Proof.
  intros Hd He Hlt fuel.
  assert (H : exists w', shell rt fuel h f ctx data w = Spinning w' /\
                         trace w' = trace w /\ env w' = env w).
  { revert w Hlt. induction fuel as [|fuel IH]; intros w Hlt.
    - by exists w.
    - cbn [shell]. unfold shell_iter.
      rewrite (select_done_early ctx _ _ td e) by done.
      rewrite (Err_done ctx _ td e) by (done || lia).
      destruct (IH (set_clock (N.max (clock w) td) w)) as (w' & Hs & Ht & Hv).
      { simpl. lia. }
      exists w'. split; [|done].
      destruct e; try discriminate; exact Hs. }
  destruct H as (w' & Hs & Ht & Hv). exists w'.
  unfold invocations, sent, printed. by rewrite Ht.
Qed.

(** ** Single-shot dispatch *)

(** C5.  For a key that is not in the handler map, CallFunc returns (for
    any fuel, so without entering the gate) a non-nil error and a payload
    with status "error" and the event name of the input, and invokes no
    handler.  For a registered key, CallFunc is the gate on the registered
    handler: when the gate returns data, CallFunc returns that data with
    a nil error; when the gate is still looping, so is CallFunc; and the
    gate does return whenever [gate_passes]. *)
Theorem CallFunc_miss_and_hit (h : wsHandler) (ctx : Context) (meta : WsFunc)
    (data : WsFuncData) (w : World) (fuel : nat) :
  let w1 := log rt h debugLevel
              (Errorf "in:%v:%v:%s"
                 [OpMeta meta; OpData data; OpStr name_CallFunc]) [] w in
  (fun_ h !! meta = None ->
     CallFunc rt fuel h ctx meta data w
       = Returned (error_data data,
                   Some (Errorf "func with current params has not been registered:%v:%s"
                           [OpMeta meta; OpStr name_CallFunc])) w1 /\
     Status (Payload (error_data data)) = ErrorLevel /\
     Event (Payload (error_data data)) = Event (Payload data) /\
     invocations w1 = invocations w) /\
  (forall f, fun_ h !! meta = Some f ->
     (forall d w2, shell rt fuel h f ctx data w1 = Returned d w2 ->
        CallFunc rt fuel h ctx meta data w
          = Returned (d, None)
              (log rt h debugLevel
                 (Errorf "out:%v:%v:%s"
                    [OpMeta meta; OpData d; OpStr name_CallFunc]) [] w2)) /\
     (forall w2, shell rt fuel h f ctx data w1 = Spinning w2 ->
        CallFunc rt fuel h ctx meta data w = Spinning w2) /\
     (gate_passes ctx (clock w) ->
        exists d w', CallFunc rt (S fuel) h ctx meta data w
                     = Returned (d, None) w')).
Proof.
  intros w1. split.
  - intros Hm. unfold CallFunc. rewrite Hm. fold w1.
    repeat split. apply log_invocations.
  - intros f Hf. unfold CallFunc. rewrite Hf. fold w1.
    split; [|split].
    + intros d w2 Hs. by rewrite Hs.
    + intros w2 Hs. by rewrite Hs.
    + intros Hp.
      destruct (shell_returns h f ctx data w1 fuel) as (d & w' & Hs).
      { unfold w1. by rewrite log_clock. }
      rewrite Hs. by eexists _, _.
Qed.

(** ** Pipeline dispatch *)

Lemma alive_until_le (ctx : Context) t t' :
  t <= t' -> alive_until ctx t' -> alive_until ctx t.
Proof.
  unfold alive_until. destruct (done_at ctx) as [[td e]|]; [lia|done].
Qed.

(** One turn of the pipeline loop when the ambient context stays alive
    through the grace interval: the handler of the cell is invoked. *)
Lemma pipeline_loop_turn (h : wsHandler) (ctx : Context) (n : wsHandlerTree)
    data (w : World) steps fuel :
  alive_until ctx (clock w + Millisecond) ->
  pipeline_loop rt (S steps) (S fuel) h ctx n data w =
  let c := WithTimeout ctx (30 * Second) (clock w) in
  let dw := invoke rt h (main n) c data (clock w + Millisecond) w in
  let w2 := emit (ChanSend (Payload dw.1)) dw.2 in
  if String.eqb (Status (Payload dw.1)) ErrorLevel then Returned tt w2
  else match children n with
       | Some c =>
           match funcTree h !! c with
           | Some n' => pipeline_loop rt steps (S fuel) h ctx n' data w2
           | None => Fault w2
           end
       | None => Returned tt w2
       end.
Proof.
  intros Ha. cbn [pipeline_loop].
  rewrite (shell_after h (main n) _ data w (clock w + Millisecond)).
  - reflexivity.
  - apply select_after. by apply alive_WithTimeout.
Qed.

(** The registry after registering [f1], then [f2] under [f1], then [f3]
    under [f2], on a new registry. *)
Lemma chain_of_three (k1 k2 k3 : WsFunc) (f1 f2 f3 : HandlerFunc) (wn : World) :
  k1 <> k2 -> k1 <> k3 -> k2 <> k3 ->
  repr f1 <> repr f2 -> repr f1 <> repr f3 -> repr f2 <> repr f3 ->
  let h := Handle k3 f3 [f2]
             (Handle k2 f2 [f1] (Handle k1 f1 [] (NewHandler rt wn).1)) in
  err h = None /\
  fun_ h !! k1 = Some f1 /\
  funcTree h !! repr f1
    = Some {| main := f1; parent := None; children := Some (repr f2) |} /\
  funcTree h !! repr f2
    = Some {| main := f2; parent := Some (repr f1);
              children := Some (repr f3) |} /\
  funcTree h !! repr f3
    = Some {| main := f3; parent := Some (repr f2); children := None |}.
Proof.
  intros Hk12 Hk13 Hk23 Hr12 Hr13 Hr23. cbn zeta.
  set (h1 := Handle k1 f1 [] (NewHandler rt wn).1).
  assert (E1 : h1 = {| fun_ := <[k1:=f1]> ∅;
                       funcTree := <[repr f1:=new_tree f1]> ∅;
                       logLevel := infoLevel; err := None |}).
  { unfold h1, Handle. simpl. by rewrite !lookup_empty. }
  set (h2 := Handle k2 f2 [f1] h1).
  assert (E2 : h2 = {| fun_ := <[k2:=f2]> (<[k1:=f1]> ∅);
                       funcTree :=
                         alter (set_parent (Some (repr f1))) (repr f2)
                           (alter (set_children (Some (repr f2))) (repr f1)
                              (<[repr f2:=new_tree f2]>
                                 (<[repr f1:=new_tree f1]> ∅)));
                       logLevel := infoLevel; err := None |}).
  { unfold h2, Handle. rewrite E1. simpl.
    rewrite lookup_insert_ne, lookup_empty by done.
    rewrite lookup_insert_ne, lookup_empty by done.
    unfold Handle_link. simpl.
    rewrite lookup_insert_ne, lookup_insert_eq by done. reflexivity. }
  set (h3 := Handle k3 f3 [f2] h2).
  assert (L1 : funcTree h2 !! repr f1
               = Some {| main := f1; parent := None;
                         children := Some (repr f2) |}).
  { rewrite E2. simpl.
    rewrite lookup_alter_ne, lookup_alter_eq by done.
    by rewrite lookup_insert_ne, lookup_insert_eq by done. }
  assert (L2 : funcTree h2 !! repr f2
               = Some {| main := f2; parent := Some (repr f1);
                         children := None |}).
  { rewrite E2. simpl.
    rewrite lookup_alter_eq, lookup_alter_ne by done.
    by rewrite lookup_insert_eq. }
  assert (L3 : funcTree h2 !! repr f3 = None).
  { rewrite E2. simpl.
    rewrite !lookup_alter_ne by done.
    by rewrite !lookup_insert_ne, lookup_empty by done. }
  assert (E3 : h3 = {| fun_ := <[k3:=f3]> (fun_ h2);
                       funcTree :=
                         alter (set_parent (Some (repr f2))) (repr f3)
                           (alter (set_children (Some (repr f3))) (repr f2)
                              (<[repr f3:=new_tree f3]> (funcTree h2)));
                       logLevel := infoLevel; err := None |}).
  { unfold h3, Handle. rewrite L3.
    replace (err h2) with (@None error) by (by rewrite E2).
    replace (fun_ h2 !! k3) with (@None HandlerFunc).
    2:{ rewrite E2. simpl.
        by rewrite !lookup_insert_ne, lookup_empty by done. }
    unfold Handle_link. cbn [funcTree set_funcTree].
    rewrite lookup_insert_ne, L2 by done. simpl.
    by rewrite E2. }
  rewrite E3. simpl. split; [done|]. split; [|split; [|split]].
  - rewrite E2. simpl.
    by rewrite !lookup_insert_ne, lookup_insert_eq by done.
  - rewrite !lookup_alter_ne by done.
    by rewrite lookup_insert_ne, L1 by done.
  - rewrite lookup_alter_ne, lookup_alter_eq by done.
    by rewrite lookup_insert_ne, L2 by done.
  - rewrite lookup_alter_eq, lookup_alter_ne by done.
    by rewrite lookup_insert_eq.
Qed.

Lemma shell_no_fault (h : wsHandler) f (ctx : Context) data fuel
    (w w' : World) :
  shell rt fuel h f ctx data w <> Fault w'.
Proof.
  revert w. induction fuel as [|fuel IH]; intros w; [done|].
  cbn [shell]. destruct (shell_iter rt h f ctx data w); [done|apply IH].
Qed.

(** On a closed registry the loop, started at a cell of the tree, never
    follows a link that leads out of the tree. *)
Lemma pipeline_loop_no_fault (h : wsHandler) (ctx : Context) data fuel steps :
  closed h ->
  forall k (n : wsHandlerTree) (w w' : World),
    funcTree h !! k = Some n ->
    pipeline_loop rt steps fuel h ctx n data w <> Fault w'.
Proof.
  intros (_ & _ & H2 & _).
  induction steps as [|steps IH]; intros k n w w' Hk; [done|].
  cbn [pipeline_loop].
  destruct (shell rt fuel h (main n) _ data w) as [d w1|w1|w1] eqn:E;
    [|done|by apply shell_no_fault in E].
  destruct (String.eqb _ _); [done|].
  destruct (children n) as [c|] eqn:Hc; [|done].
  destruct (H2 k n c Hk Hc) as [n' Hn']. rewrite Hn'. by apply IH with c.
Qed.

(** C6.  For a key that is not in the handler map, CallPipelineFunc (for
    any fuel) sends exactly one payload, with status "error" and the event
    name of the input, returns a non-nil error and invokes no handler.
    For a registered key, on a closed registry (as configuration calls
    build them), the handler has its cell in the tree and the only value
    CallPipelineFunc returns is nil: it returns nil exactly when its loop
    is left (end of the chain, or a payload with status "error"), and the
    loop is left, for instance, after one turn when the cell has no child
    and the gate passes. *)
Theorem CallPipelineFunc_miss_and_nil (h : wsHandler) (ctx : Context)
    (meta : WsFunc) (data : WsFuncData) (w : World) (fuel : nat) :
  let w1 := log rt h debugLevel
              (Errorf "in:%v:%v:%s"
                 [OpMeta meta; OpData data; OpStr name_CallPipelineFunc]) [] w in
  (fun_ h !! meta = None ->
     let w' := emit (ChanSend (miss_payload data)) w1 in
     CallPipelineFunc rt fuel h ctx meta data w
       = Returned
           (Some (Errorf "func with current params has not been registered:%v:%s"
                    [OpMeta meta; OpStr name_CallPipelineFunc])) w' /\
     sent w' = sent w ++ [miss_payload data] /\
     Status (miss_payload data) = ErrorLevel /\
     Event (miss_payload data) = Event (Payload data) /\
     invocations w' = invocations w) /\
  (closed h -> forall f, fun_ h !! meta = Some f ->
     exists n, funcTree h !! repr f = Some n /\
     (forall r w', CallPipelineFunc rt fuel h ctx meta data w = Returned r w' ->
        r = None /\ pipeline_loop rt fuel fuel h ctx n data w1 = Returned tt w') /\
     (forall w', pipeline_loop rt fuel fuel h ctx n data w1 = Returned tt w' ->
        CallPipelineFunc rt fuel h ctx meta data w = Returned None w') /\
     (forall w', CallPipelineFunc rt fuel h ctx meta data w <> Fault w') /\
     (children n = None ->
      gate_passes (WithTimeout ctx (30 * Second) (clock w)) (clock w) ->
      exists w', CallPipelineFunc rt (S fuel) h ctx meta data w
                 = Returned None w')).
Proof.
  intros w1. split.
  - intros Hm w'. unfold CallPipelineFunc. rewrite Hm. fold w1.
    split; [reflexivity|]. split; [|split; [reflexivity|split; [reflexivity|]]].
    + subst w'. unfold w1. by rewrite emit_send_sent, log_sent.
    + subst w'. unfold w1. by rewrite emit_send_invocations, log_invocations.
  - intros Hcl f Hf.
    destruct (proj1 Hcl meta f Hf) as [n Hn]. exists n. split; [done|].
    unfold CallPipelineFunc. rewrite Hf, Hn. fold w1.
    split; [|split; [|split]].
    + intros r w'.
      destruct (pipeline_loop rt fuel fuel h ctx n data w1) as [[] w2|w2|w2];
        [|discriminate|discriminate].
      by intros [= <- <-].
    + intros w' Hl. by rewrite Hl.
    + intros w'.
      pose proof (pipeline_loop_no_fault h ctx data fuel fuel Hcl
                    (repr f) n w1) as Hnf.
      destruct (pipeline_loop rt fuel fuel h ctx n data w1) as [[] w2|w2|w2];
        [done|done|].
      by destruct (Hnf w2).
    + intros Hc Hp. cbn [pipeline_loop].
      destruct (shell_returns h (main n)
                  (WithTimeout ctx (30 * Second) (clock w1)) data w1 fuel)
        as (d & w2 & Hs).
      { unfold w1. by rewrite log_clock. }
      rewrite Hs, Hc.
      destruct (String.eqb _ _); by eexists.
Qed.

(** C2.  Three different handlers registered under three different keys
    as the chain f1, f2, f3 on a new registry (the registration leaves no
    error), and the pipeline called on the key of f1 with an ambient
    context that is not done up to the instant f2 is invoked: if the
    payload of f1 has a status other than "error" and the payload of f2
    has status "error", then CallPipelineFunc returns nil, having sent
    exactly those two payloads, in that order, and having invoked f1 and
    f2 only: f3 is not invoked. *)
Theorem pipeline_stops_at_error_status (k1 k2 k3 : WsFunc)
    (f1 f2 f3 : HandlerFunc) (wn : World) (ctx : Context) (data : WsFuncData)
    (w : World) (fuel : nat) :
  k1 <> k2 -> k1 <> k3 -> k2 <> k3 ->
  repr f1 <> repr f2 -> repr f1 <> repr f3 -> repr f2 <> repr f3 ->
  let h := Handle k3 f3 [f2]
             (Handle k2 f2 [f1] (Handle k1 f1 [] (NewHandler rt wn).1)) in
  let t1 := clock w + Millisecond in
  let r1 := call f1 (WithTimeout ctx (30 * Second) (clock w)) data t1 (env w) in
  let s2 := t1 + elapsed r1 in
  let t2 := s2 + Millisecond in
  let r2 := call f2 (WithTimeout ctx (30 * Second) s2) data t2 (env_after r1) in
  alive_until ctx t2 ->
  Status (Payload (ret_data r1)) <> ErrorLevel ->
  Status (Payload (ret_data r2)) = ErrorLevel ->
  err h = None /\
  exists w',
    CallPipelineFunc rt (2 + fuel) h ctx k1 data w = Returned None w' /\
    sent w' = sent w ++ [Payload (ret_data r1); Payload (ret_data r2)] /\
    invocations w' = invocations w ++ [repr f1; repr f2] /\
    repr f3 ∉ [repr f1; repr f2].
Proof.
  intros Hk12 Hk13 Hk23 Hr12 Hr13 Hr23 h t1 r1 s2 t2 r2 Halive Hs1 Hs2.
  destruct (chain_of_three k1 k2 k3 f1 f2 f3 wn) as (He & Hf & L1 & L2 & _);
    try done.
  fold h in He, Hf, L1, L2. split; [done|].
  unfold CallPipelineFunc. rewrite Hf, L1.
  set (w1 := log rt h debugLevel _ [] w).
  assert (Hc1 : clock w1 = clock w) by apply log_clock.
  assert (He1 : env w1 = env w) by apply log_env.
  change (2 + fuel)%nat with (S (S fuel)).
  rewrite pipeline_loop_turn.
  2:{ rewrite Hc1. apply alive_until_le with t2; [|done]. unfold t2, s2, t1. lia. }
  cbn zeta. cbn [main children].
  set (dw1 := invoke rt h f1 _ data _ w1).
  assert (Hd1 : dw1.1 = ret_data r1).
  { unfold dw1. rewrite invoke_data, Hc1, He1. reflexivity. }
  assert (Hcl1 : clock dw1.2 = s2).
  { unfold dw1. rewrite invoke_clock, Hc1, He1. reflexivity. }
  assert (Hen1 : env dw1.2 = env_after r1).
  { unfold dw1. rewrite invoke_env, Hc1, He1. reflexivity. }
  rewrite Hd1.
  destruct (String.eqb_spec (Status (Payload (ret_data r1))) ErrorLevel);
    [done|].
  rewrite L2.
  set (w2 := emit (ChanSend (Payload (ret_data r1))) dw1.2).
  assert (Hc2 : clock w2 = s2) by exact Hcl1.
  assert (He2 : env w2 = env_after r1) by exact Hen1.
  rewrite pipeline_loop_turn.
  2:{ rewrite Hc2. exact Halive. }
  cbn zeta. cbn [main children].
  set (dw2 := invoke rt h f2 _ data _ w2).
  assert (Hd2 : dw2.1 = ret_data r2).
  { unfold dw2. rewrite invoke_data, Hc2, He2. reflexivity. }
  rewrite Hd2, Hs2. simpl String.eqb. cbn match.
  eexists. split; [reflexivity|].
  split; [|split].
  - rewrite emit_send_sent. unfold dw2. rewrite invoke_sent.
    unfold w2. rewrite emit_send_sent. unfold dw1. rewrite invoke_sent.
    unfold w1. rewrite log_sent. by rewrite <- app_assoc.
  - rewrite emit_send_invocations. unfold dw2. rewrite invoke_invocations.
    unfold w2. rewrite emit_send_invocations. unfold dw1.
    rewrite invoke_invocations.
    unfold w1. rewrite log_invocations. by rewrite <- app_assoc.
  - intros Hin.
    apply elem_of_cons in Hin as [?|Hin]; [congruence|].
    apply elem_of_cons in Hin as [?|Hin]; [congruence|].
    by apply elem_of_nil in Hin.
Qed.

(** * Further properties of the registry *)

(** X1.  A call of Handle that leaves no error, on a registry without
    error: the key was not registered before and is bound to the function
    now, no other binding changed, the log level is as before, and the
    function has a cell in the tree.  Without a parent argument the
    function had no cell before and the tree gained just the new cell;
    with one, the cell of the parent names the function as its child and
    the cell of the function names the parent as its parent. *)
Theorem Handle_success (h : wsHandler) meta f ps :
  err h = None ->
  err (Handle meta f ps h) = None ->
  fun_ h !! meta = None /\
  fun_ (Handle meta f ps h) = <[meta := f]> (fun_ h) /\
  logLevel (Handle meta f ps h) = logLevel h /\
  is_Some (funcTree (Handle meta f ps h) !! repr f) /\
  match ps with
  | [] => funcTree h !! repr f = None /\
          funcTree (Handle meta f ps h)
            = <[repr f := new_tree f]> (funcTree h)
  | pf :: _ =>
      exists np n,
        funcTree (Handle meta f ps h) !! repr pf = Some np /\
        children np = Some (repr f) /\
        funcTree (Handle meta f ps h) !! repr f = Some n /\
        parent n = Some (repr pf)
  end.
Proof.
  intros He. unfold Handle. rewrite He.
  destruct (fun_ h !! meta) eqn:Hm; [discriminate|].
  assert (Hlink : forall pf (h1 : wsHandler),
    fun_ h1 = fun_ h -> logLevel h1 = logLevel h ->
    is_Some (funcTree h1 !! repr f) ->
    err (Handle_link meta f pf h1) = None ->
    None = (None : option HandlerFunc) /\
    fun_ (Handle_link meta f pf h1) = <[meta := f]> (fun_ h) /\
    logLevel (Handle_link meta f pf h1) = logLevel h /\
    is_Some (funcTree (Handle_link meta f pf h1) !! repr f) /\
    exists np n,
      funcTree (Handle_link meta f pf h1) !! repr pf = Some np /\
      children np = Some (repr f) /\
      funcTree (Handle_link meta f pf h1) !! repr f = Some n /\
      parent n = Some (repr pf)).
  { intros pf h1 Hf Hl [n0 Hn0]. unfold Handle_link.
    destruct (funcTree h1 !! repr pf) as [np0|] eqn:Hp; [|discriminate].
    destruct (children np0); [discriminate|]. simpl. intros _.
    rewrite Hf, Hl. split; [done|]. split; [done|]. split; [done|].
    split.
    - rewrite !lookup_alter_is_Some. by eexists.
    - destruct (decide (repr f = repr pf)) as [E|E].
      + rewrite <- E in *. rewrite Hn0 in Hp. injection Hp as <-.
        eexists _, _. rewrite !lookup_alter_eq, Hn0. simpl. done.
      + destruct (lookup_alter (set_parent (Some (repr pf))) 
                    (alter (set_children (Some (repr f))) (repr pf)
                       (funcTree h1)) (repr f) (repr f)) as [].
        eexists _, _.
        rewrite lookup_alter_ne, lookup_alter_eq, Hp by done.
        rewrite lookup_alter_eq, lookup_alter_ne, Hn0 by done.
        simpl. done. }
  destruct ps as [|pf rest].
  - destruct (funcTree h !! repr f) eqn:Hn; [discriminate|].
    simpl. intros _. split; [done|]. split; [done|]. split; [done|].
    split; [|done]. rewrite lookup_insert_eq. by eexists.
  - destruct (funcTree h !! repr f) as [n|] eqn:Hn.
    + destruct (children n); [discriminate|].
      apply Hlink; [done|done|]. rewrite Hn. by eexists.
    + apply Hlink; [done|done|]. simpl. rewrite lookup_insert_eq. by eexists.
Qed.

(** X2.  A call of Handle that ends with an error, on a registry without
    error: the handler map and the log level are as before, every cell of
    the tree is as before, and the tree as a whole is either as before or
    (when a parent was given and the function had no cell) has gained one
    cell, new and without links, for the function. *)
Theorem Handle_rejection_frame (h : wsHandler) meta f parent :
  err h = None ->
  err (Handle meta f parent h) <> None ->
  fun_ (Handle meta f parent h) = fun_ h /\
  logLevel (Handle meta f parent h) = logLevel h /\
  (funcTree (Handle meta f parent h) = funcTree h \/
   (parent <> [] /\ funcTree h !! repr f = None /\
    funcTree (Handle meta f parent h)
      = <[repr f := new_tree f]> (funcTree h))) /\
  (forall k n, funcTree h !! k = Some n ->
               funcTree (Handle meta f parent h) !! k = Some n).
Proof.
  intros He Hrej.
  assert (H : fun_ (Handle meta f parent h) = fun_ h /\
              logLevel (Handle meta f parent h) = logLevel h /\
              (funcTree (Handle meta f parent h) = funcTree h \/
               (parent <> [] /\ funcTree h !! repr f = None /\
                funcTree (Handle meta f parent h)
                  = <[repr f := new_tree f]> (funcTree h)))).
  { revert Hrej. unfold Handle. rewrite He.
    destruct (fun_ h !! meta); [intros _; simpl; auto|].
    destruct parent as [|pf rest].
    - destruct (funcTree h !! repr f); simpl; [auto|]. by rewrite He.
    - destruct (funcTree h !! repr f) as [n|] eqn:Hn.
      + destruct (children n); [simpl; auto|].
        unfold Handle_link.
        destruct (funcTree h !! repr pf) as [np|]; [|simpl; auto].
        destruct (children np); simpl; [auto|]. by rewrite He.
      + unfold Handle_link. cbn [funcTree set_funcTree].
        destruct (<[repr f:=new_tree f]> (funcTree h) !! repr pf) as [np|];
          [|simpl; intros _; split; [done|]; split; [done|]; right; done].
        destruct (children np); simpl;
          [intros _; split; [done|]; split; [done|]; right; done|].
        by rewrite He. }
  destruct H as (Hf & Hl & Ht). repeat split; try done.
  intros k n Hk. destruct Ht as [->|(_ & Hn & ->)]; [done|].
  rewrite lookup_insert_ne; [done|]. intros <-. by rewrite Hn in Hk.
Qed.

Lemma Handle_keeps_binding (h : wsHandler) meta f parent m g :
  fun_ h !! m = Some g -> fun_ (Handle meta f parent h) !! m = Some g.
Proof.
  intros Hm. unfold Handle.
  destruct (err h); [done|].
  destruct (fun_ h !! meta) eqn:Hmeta; [done|].
  assert (Hne : meta <> m) by (intros ->; by rewrite Hm in Hmeta).
  destruct parent as [|pf rest].
  - destruct (funcTree h !! repr f); simpl; [done|].
    by rewrite lookup_insert_ne.
  - assert (Hl : forall h1 : wsHandler, fun_ h1 = fun_ h ->
                   fun_ (Handle_link meta f pf h1) !! m = Some g).
    { intros h1 E. unfold Handle_link.
      destruct (funcTree h1 !! repr pf) as [np|]; simpl; [|by rewrite E].
      destruct (children np); simpl; rewrite E; [done|].
      by rewrite lookup_insert_ne. }
    destruct (funcTree h !! repr f) as [n|]; [|by apply Hl].
    destruct (children n); [done|by apply Hl].
Qed.

Lemma SetLogLevel_registry (h : wsHandler) level (w : World) :
  fun_ (SetLogLevel rt level h w).1 = fun_ h /\
  funcTree (SetLogLevel rt level h w).1 = funcTree h.
Proof.
  unfold SetLogLevel. destruct (err h); [done|].
  by destruct (ParseLevel level) as [l [e|]].
Qed.

(** X3.  A key is registered once and for good: a binding of the handler
    map survives every sequence of configuration calls unchanged, and on
    a registry without error a further Handle for a key that is bound
    (whatever the function and the parent) ends with the error for a
    registered key and changes neither the handler map nor the tree. *)
Theorem registration_is_permanent (h : wsHandler) (m : WsFunc) (g : HandlerFunc) :
  fun_ h !! m = Some g ->
  (forall cs (w : World), fun_ (configure_all rt cs (h, w)).1 !! m = Some g) /\
  (err h = None ->
   forall f parent,
     err (Handle m f parent h) = Some duplicate_key_error /\
     fun_ (Handle m f parent h) = fun_ h /\
     funcTree (Handle m f parent h) = funcTree h).
Proof.
  intros Hm. split.
  - intros cs. unfold configure_all. revert h Hm.
    induction cs as [|c cs IH]; intros h Hm w; simpl; [done|].
    destruct c as [meta f parent|level]; simpl.
    + apply IH. by apply Handle_keeps_binding.
    + destruct (SetLogLevel rt level h w) as [h' w'] eqn:E. apply IH.
      pose proof (proj1 (SetLogLevel_registry h level w)) as Hf.
      rewrite E in Hf. simpl in Hf. by rewrite Hf.
  - intros He f parent. unfold Handle. by rewrite He, Hm.
Qed.



(** X5.  The registries that configuration builds are closed: starting
    from NewHandler, or from any closed registry, every sequence of Handle
    and SetLogLevel calls (failed ones included) leaves a registry in
    which every registered function has a cell, every cell is stored
    under the representation of its own function, and every parent and
    child link leads to a cell. *)
Theorem configuration_keeps_closed :
  (forall w : World, closed (NewHandler rt w).1) /\
  (forall (h : wsHandler) cs (w : World),
      closed h -> closed (configure_all rt cs (h, w)).1).
Proof.
  split.
  - intros w. repeat split; simpl; intros *; by rewrite lookup_empty.
  - intros h cs w. apply closed_configure_all.
Qed.

Lemma Handle_ok_has_cell (h : wsHandler) meta f ps :
  err h = None -> err (Handle meta f ps h) = None ->
  is_Some (funcTree (Handle meta f ps h) !! repr f).
Proof.
  intros He. unfold Handle. rewrite He.
  destruct (fun_ h !! meta); [discriminate|].
  assert (Hl : forall pf (h1 : wsHandler),
            is_Some (funcTree h1 !! repr f) ->
            err (Handle_link meta f pf h1) = None ->
            is_Some (funcTree (Handle_link meta f pf h1) !! repr f)).
  { intros pf h1 Hn. unfold Handle_link.
    destruct (funcTree h1 !! repr pf) as [np|]; [|discriminate].
    destruct (children np); [discriminate|]. simpl. intros _.
    by rewrite !lookup_alter_is_Some. }
  destruct ps as [|pf rest].
  - destruct (funcTree h !! repr f); [discriminate|]. simpl. intros _.
    rewrite lookup_insert_eq. by eexists.
  - destruct (funcTree h !! repr f) as [n|] eqn:Hn.
    + destruct (children n); [discriminate|].
      apply Hl. rewrite Hn. by eexists.
    + apply Hl. simpl. rewrite lookup_insert_eq. by eexists.
Qed.

(** X6.  A function that was registered (with or without a parent)
    cannot be registered afterwards as a root: a Handle without parent
    argument for it ends with an error, whatever the key (the error for a
    registered key if the key is bound, the error for a declared function
    otherwise), and changes neither the handler map nor the tree. *)
Theorem registered_function_is_no_new_root (h : wsHandler) k1 f ps k2 :
  err h = None ->
  err (Handle k1 f ps h) = None ->
  err (Handle k2 f [] (Handle k1 f ps h))
    = Some (match fun_ (Handle k1 f ps h) !! k2 with
            | Some _ => duplicate_key_error
            | None => declared_error f
            end) /\
  fun_ (Handle k2 f [] (Handle k1 f ps h)) = fun_ (Handle k1 f ps h) /\
  funcTree (Handle k2 f [] (Handle k1 f ps h)) = funcTree (Handle k1 f ps h).
Proof.
  intros He Hok.
  destruct (Handle_ok_has_cell h k1 f ps He Hok) as [n Hn].
  set (h1 := Handle k1 f ps h) in *.
  unfold Handle. rewrite Hok.
  destruct (fun_ h1 !! k2); [done|]. by rewrite Hn.
Qed.

(** * Further properties of the dispatch *)

Lemma log_invoked_with (h : wsHandler) lvl ev body (w : World) :
  invoked_with (log rt h lvl ev body w) = invoked_with w.
Proof.
  unfold invoked_with. rewrite log_trace, omap_app.
  destruct (lvl <=? logLevel h); simpl; by rewrite app_nil_r.
Qed.

Lemma emit_send_invoked_with p (w : World) :
  invoked_with (emit (ChanSend p) w) = invoked_with w.
Proof.
  unfold invoked_with, emit. simpl. rewrite omap_app. simpl.
  by rewrite app_nil_r.
Qed.

Lemma invoke_invoked_with (h : wsHandler) f ctx data t (w : World) :
  invoked_with (invoke rt h f ctx data t w).2 = invoked_with w ++ [data].
Proof.
  unfold invoke. cbn [snd].
  destruct (ret_err _); [rewrite log_invoked_with|];
    unfold invoked_with, after_call; simpl; by rewrite omap_app.
Qed.

(** What a run of the gate does to the world, whatever its outcome: it
    sends nothing, and it invokes its handler once, on its data, or not
    at all. *)
Lemma shell_effects (h : wsHandler) f (ctx : Context) data fuel (w : World) :
  sent (world_of (shell rt fuel h f ctx data w)) = sent w /\
  ((invocations (world_of (shell rt fuel h f ctx data w)) = invocations w /\
    invoked_with (world_of (shell rt fuel h f ctx data w)) = invoked_with w) \/
   (invocations (world_of (shell rt fuel h f ctx data w))
      = invocations w ++ [repr f] /\
    invoked_with (world_of (shell rt fuel h f ctx data w))
      = invoked_with w ++ [data])).
Proof.
  revert w. induction fuel as [|fuel IH]; intros w; [simpl; auto|].
  cbn [shell]. unfold shell_iter.
  destruct (select rt ctx (clock w) Millisecond) as [[] t].
  - assert (Hagain : forall o : outcome WsFuncData,
              o = shell rt fuel h f ctx data (set_clock t w) ->
              sent (world_of o) = sent w /\
              ((invocations (world_of o) = invocations w /\
                invoked_with (world_of o) = invoked_with w) \/
               (invocations (world_of o) = invocations w ++ [repr f] /\
                invoked_with (world_of o) = invoked_with w ++ [data]))).
    { intros o ->. apply (IH (set_clock t w)). }
    destruct (Err ctx t) as [[]|]; try (by apply Hagain).
    cbn [world_of]. rewrite log_sent, log_invocations, log_invoked_with. auto.
  - pose proof (invoke_sent h f ctx data t w) as Hs.
    pose proof (invoke_invocations h f ctx data t w) as Hi.
    pose proof (invoke_invoked_with h f ctx data t w) as Hd.
    destruct (invoke rt h f ctx data t w) as [d w1]. simpl in *. auto.
Qed.

Lemma shell_returned_sent (h : wsHandler) f (ctx : Context) data fuel
    (w : World) d w1 :
  shell rt fuel h f ctx data w = Returned d w1 -> sent w1 = sent w.
Proof.
  intros E. pose proof (proj1 (shell_effects h f ctx data fuel w)) as H.
  by rewrite E in H.
Qed.

Lemma pipeline_loop_stream (h : wsHandler) (ctx : Context) data fuel steps :
  forall (n : wsHandlerTree) (w w' : World),
    pipeline_loop rt steps fuel h ctx n data w = Returned tt w' ->
    exists ps p, sent w' = sent w ++ ps ++ [p] /\
                 Forall (fun q => Status q <> ErrorLevel) ps.
Proof.
  induction steps as [|steps IH]; intros n w w'; [done|].
  cbn [pipeline_loop].
  destruct (shell rt fuel h (main n) _ data w) as [d w1|w1|w1] eqn:E;
    [|done|done].
  apply shell_returned_sent in E.
  assert (Hlast : exists ps p,
            sent (emit (ChanSend (Payload d)) w1) = sent w ++ ps ++ [p] /\
            Forall (fun q => Status q <> ErrorLevel) ps).
  { exists [], (Payload d). by rewrite emit_send_sent, E. }
  destruct (String.eqb_spec (Status (Payload d)) ErrorLevel) as [|Hne].
  { by intros [= <-]. }
  destruct (children n) as [c|]; [|by intros [= <-]].
  destruct (funcTree h !! c) as [n'|]; [|done].
  intros Hl. apply IH in Hl as (ps & p & Hs & Hf).
  exists (Payload d :: ps), p. split.
  - rewrite Hs, emit_send_sent, E. by rewrite <- !app_assoc.
  - by constructor.
Qed.

(** X7.  Whenever CallPipelineFunc returns, it has sent at least one
    payload, and every payload it sent but the last has a status other
    than "error": a consumer that stops reading at the first payload with
    status "error" misses nothing.  When the value returned is an error,
    the one payload sent is the one made up for a missing key. *)
Theorem pipeline_stream_shape (h : wsHandler) (ctx : Context) (meta : WsFunc)
    (data : WsFuncData) (w w' : World) (fuel : nat) (r : option error) :
  CallPipelineFunc rt fuel h ctx meta data w = Returned r w' ->
  exists ps p,
    sent w' = sent w ++ ps ++ [p] /\
    Forall (fun q => Status q <> ErrorLevel) ps /\
    (r <> None -> ps = [] /\ p = miss_payload data).
Proof.
  unfold CallPipelineFunc.
  set (w1 := log rt h debugLevel _ [] w).
  assert (Hw1 : sent w1 = sent w) by apply log_sent.
  assert (Hmiss : forall e w2,
            Returned (Some e) (emit (ChanSend (miss_payload data)) w1)
              = Returned r w2 ->
            exists ps p, sent w2 = sent w ++ ps ++ [p] /\
              Forall (fun q => Status q <> ErrorLevel) ps /\
              (r <> None -> ps = [] /\ p = miss_payload data)).
  { intros e w2 [= <- <-]. exists [], (miss_payload data).
    by rewrite emit_send_sent, Hw1. }
  destruct (fun_ h !! meta) as [f|]; [|apply Hmiss].
  destruct (funcTree h !! repr f) as [n|]; [|apply Hmiss].
  destruct (pipeline_loop rt fuel fuel h ctx n data w1) as [[] w2|w2|w2] eqn:E;
    [|done|done].
  intros [= <- <-].
  apply pipeline_loop_stream in E as (ps & p & Hs & Hf).
  exists ps, p. by rewrite Hs, Hw1.
Qed.

Lemma pipeline_loop_data (h : wsHandler) (ctx : Context) data fuel steps :
  forall (n : wsHandlerTree) (w : World),
    exists m, invoked_with (world_of (pipeline_loop rt steps fuel h ctx n data w))
              = invoked_with w ++ replicate m data.
Proof.
  induction steps as [|steps IH]; intros n w.
  { exists 0%nat. simpl. by rewrite app_nil_r. }
  cbn [pipeline_loop].
  pose proof (proj2 (shell_effects h (main n)
                       (WithTimeout ctx (30 * Second) (clock w)) data fuel w))
    as Hsh.
  assert (Hsh' : exists m0,
            invoked_with (world_of (shell rt fuel h (main n)
                            (WithTimeout ctx (30 * Second) (clock w)) data w))
            = invoked_with w ++ replicate m0 data).
  { destruct Hsh as [[_ Hd]|[_ Hd]]; [exists 0%nat|exists 1%nat];
      rewrite Hd; simpl; by rewrite ?app_nil_r. }
  clear Hsh. destruct Hsh' as [m0 Hm0].
  destruct (shell rt fuel h (main n) _ data w) as [d w1|w1|w1];
    cbn [world_of] in Hm0; [|by exists m0|by exists m0].
  assert (Hstop : exists m,
            invoked_with (emit (ChanSend (Payload d)) w1)
            = invoked_with w ++ replicate m data).
  { exists m0. by rewrite emit_send_invoked_with. }
  destruct (String.eqb _ _); [exact Hstop|].
  destruct (children n) as [c|]; [|exact Hstop].
  destruct (funcTree h !! c) as [n'|]; [|exact Hstop].
  destruct (IH n' (emit (ChanSend (Payload d)) w1)) as [m Hm].
  exists (m0 + m)%nat.
  rewrite Hm, emit_send_invoked_with, Hm0, replicate_add.
  by rewrite <- app_assoc.
Qed.

(** X8.  Every handler that CallPipelineFunc invokes, the later stages of
    the chain included, is invoked with the data given to CallPipelineFunc
    itself: no stage receives the output of the stage before it.  This
    holds in every state of the call, also while it is still running. *)
Theorem pipeline_stages_get_the_call_data (h : wsHandler) (ctx : Context)
    (meta : WsFunc) (data : WsFuncData) (w : World) (fuel : nat) :
  exists m,
    invoked_with (world_of (CallPipelineFunc rt fuel h ctx meta data w))
    = invoked_with w ++ replicate m data.
Proof.
  unfold CallPipelineFunc.
  set (w1 := log rt h debugLevel _ [] w).
  assert (Hw1 : invoked_with w1 = invoked_with w) by apply log_invoked_with.
  assert (Hmiss : exists m,
            invoked_with (emit (ChanSend (miss_payload data)) w1)
            = invoked_with w ++ replicate m data).
  { exists 0%nat. rewrite emit_send_invoked_with, Hw1. simpl.
    by rewrite app_nil_r. }
  destruct (fun_ h !! meta) as [f|]; [|exact Hmiss].
  destruct (funcTree h !! repr f) as [n|]; [|exact Hmiss].
  destruct (pipeline_loop_data h ctx data fuel fuel n w1) as [m Hm].
  exists m. rewrite <- Hw1, <- Hm.
  by destruct (pipeline_loop rt fuel fuel h ctx n data w1).
Qed.

Lemma emit_clock e (w : World) : clock (emit e w) = clock w.
Proof. reflexivity. Qed.

Lemma emit_env e (w : World) : env (emit e w) = env w.
Proof. reflexivity. Qed.

Lemma alive_never (ctx : Context) t : done_at ctx = None -> alive_until ctx t.
Proof. unfold alive_until. by intros ->. Qed.

Lemma pipeline_loop_cycle (h : wsHandler) (ctx : Context) (n : wsHandlerTree)
    c data fuel :
  done_at ctx = None ->
  children n = Some c -> funcTree h !! c = Some n ->
  (forall c' d t e,
      Status (Payload (ret_data (call (main n) c' d t e))) <> ErrorLevel) ->
  forall steps (w : World),
    exists w', pipeline_loop rt steps (S fuel) h ctx n data w = Spinning w' /\
               length (sent w') = (length (sent w) + steps)%nat.
Proof.
  intros Hd Hc Hn Hst. induction steps as [|steps IH]; intros w.
  { exists w. simpl. split; [done|lia]. }
  rewrite pipeline_loop_turn by (by apply alive_never).
  cbn zeta. rewrite invoke_data.
  destruct (String.eqb_spec
              (Status (Payload (ret_data
                 (call (main n) (WithTimeout ctx (30 * Second) (clock w)) data
                    (clock w + Millisecond) (env w))))) ErrorLevel) as [E|_];
    [by apply Hst in E|].
  rewrite Hc, Hn.
  match goal with |- context [pipeline_loop rt steps (S fuel) h ctx n data ?w2] =>
    destruct (IH w2) as (w' & Hl & Hs) end.
  exists w'. split; [exact Hl|].
  rewrite Hs, emit_send_sent, invoke_sent, length_app. simpl. lia.
Qed.

(** X9.  Handle accepts a function as its own parent: on a new registry
    it leaves no error and one cell that is its own child and its own
    parent.  The pipeline on that key then never returns as long as the
    payloads of the handler have a status other than "error" and the
    context is never done: with every unit of fuel it sends one more
    payload. *)
Theorem self_parent_pipeline_never_ends (k : WsFunc) (f : HandlerFunc)
    (wn : World) :
  let h := Handle k f [f] (NewHandler rt wn).1 in
  err h = None /\
  fun_ h !! k = Some f /\
  funcTree h !! repr f
    = Some {| main := f; parent := Some (repr f); children := Some (repr f) |} /\
  forall (ctx : Context) (data : WsFuncData) (w : World),
    done_at ctx = None ->
    (forall c d t e,
        Status (Payload (ret_data (call f c d t e))) <> ErrorLevel) ->
    forall fuel,
      exists w', CallPipelineFunc rt fuel h ctx k data w = Spinning w' /\
                 length (sent w') = (length (sent w) + fuel)%nat.
Proof.
  intros h.
  assert (E : h = {| fun_ := <[k:=f]> ∅;
                     funcTree :=
                       alter (set_parent (Some (repr f))) (repr f)
                         (alter (set_children (Some (repr f))) (repr f)
                            (<[repr f:=new_tree f]> ∅));
                     logLevel := infoLevel; err := None |}).
  { unfold h, Handle. simpl. rewrite !lookup_empty.
    unfold Handle_link. simpl. by rewrite lookup_insert_eq. }
  assert (Hf : fun_ h !! k = Some f) by (rewrite E; apply lookup_insert_eq).
  assert (Hn : funcTree h !! repr f
               = Some {| main := f; parent := Some (repr f);
                         children := Some (repr f) |}).
  { rewrite E. simpl. by rewrite !lookup_alter_eq, lookup_insert_eq. }
  split; [by rewrite E|]. split; [done|]. split; [done|].
  intros ctx data w Hd Hst fuel.
  unfold CallPipelineFunc. rewrite Hf, Hn.
  set (w1 := log rt h debugLevel _ [] w).
  assert (Hw1 : sent w1 = sent w) by apply log_sent.
  destruct fuel as [|fuel].
  { exists w1. simpl. split; [done|]. rewrite Hw1. lia. }
  destruct (pipeline_loop_cycle h ctx
              {| main := f; parent := Some (repr f);
                 children := Some (repr f) |}
              (repr f) data fuel Hd eq_refl Hn Hst (S fuel) w1)
    as (w' & Hl & Hs).
  rewrite Hl. exists w'. split; [done|]. by rewrite Hs, Hw1.
Qed.

(** X10.  When the deadline of the ambient context has passed by the time
    CallPipelineFunc is called on a registered key, the call returns nil
    after one turn, whatever the chain: it sends exactly the timeout
    payload made up from the input and invokes no handler. *)
Theorem pipeline_expired_deadline (h : wsHandler) (ctx : Context)
    (meta : WsFunc) (data : WsFuncData) (w : World) (td : N) (fuel : nat)
    (f : HandlerFunc) (n : wsHandlerTree) :
  done_at ctx = Some (td, DeadlineExceeded) ->
  td <= clock w ->
  fun_ h !! meta = Some f ->
  funcTree h !! repr f = Some n ->
  exists w',
    CallPipelineFunc rt (S fuel) h ctx meta data w = Returned None w' /\
    sent w' = sent w ++ [Payload (timeout_data data)] /\
    invocations w' = invocations w.
Proof.
  intros Hd Hle Hf Hn. unfold CallPipelineFunc. rewrite Hf, Hn.
  set (w1 := log rt h debugLevel _ [] w).
  assert (Hc1 : clock w1 = clock w) by apply log_clock.
  cbn [pipeline_loop].
  assert (Hctx : done_at (WithTimeout ctx (30 * Second) (clock w1))
                 = Some (td, DeadlineExceeded)).
  { unfold WithTimeout. rewrite Hd.
    destruct (N.leb_spec td (clock w1 + 30 * Second)); [done|lia]. }
  rewrite (shell_deadline h (main n) _ data w1 (clock w1)).
  - cbn [timeout_data Payload Status]. simpl String.eqb. cbn match.
    eexists. split; [reflexivity|].
    rewrite emit_send_sent, emit_send_invocations.
    rewrite log_sent, log_invocations, set_clock_same.
    unfold w1. by rewrite log_sent, log_invocations.
  - apply select_done_already with td DeadlineExceeded; [done|lia].
  - apply Err_done with td; [done|lia].
Qed.

Lemma shell_spin (h : wsHandler) f (ctx : Context) data td e fuel :
  done_at ctx = Some (td, e) -> is_DeadlineExceeded e = false ->
  forall w : World,
    td < clock w + Millisecond ->
    exists w', shell rt fuel h f ctx data w = Spinning w' /\
               trace w' = trace w.
Proof.
  intros Hd He. induction fuel as [|fuel IH]; intros w Hlt.
  - by exists w.
  - cbn [shell]. unfold shell_iter.
    rewrite (select_done_early ctx _ _ td e) by done.
    rewrite (Err_done ctx _ td e) by (done || lia).
    destruct (IH (set_clock (N.max (clock w) td) w)) as (w' & Hs & Ht).
    { simpl. lia. }
    exists w'. split; [|done].
    destruct e; try discriminate; exact Hs.
Qed.

(** X11.  When the ambient context is done before the grace interval has
    elapsed, with an error other than the deadline error (it was
    cancelled), a dispatch on a registered key does not return, whatever
    the fuel: neither CallFunc nor CallPipelineFunc; no handler is invoked
    and nothing is sent on the channel. *)
Theorem dispatch_hangs_when_cancelled (h : wsHandler) (ctx : Context)
    (meta : WsFunc) (data : WsFuncData) (w : World) (td : N) (e : error)
    (f : HandlerFunc) :
  done_at ctx = Some (td, e) ->
  is_DeadlineExceeded e = false ->
  td < clock w + Millisecond ->
  fun_ h !! meta = Some f ->
  forall fuel,
    (exists w', CallFunc rt fuel h ctx meta data w = Spinning w' /\
                invocations w' = invocations w /\ sent w' = sent w) /\
    (forall n, funcTree h !! repr f = Some n ->
       exists w', CallPipelineFunc rt fuel h ctx meta data w = Spinning w' /\
                  invocations w' = invocations w /\ sent w' = sent w).
Proof.
  intros Hd He Hlt Hf fuel. split.
  - unfold CallFunc. rewrite Hf.
    set (w1 := log rt h debugLevel _ [] w).
    destruct (shell_spin h f ctx data td e fuel Hd He w1) as (w' & Hs & Ht).
    { unfold w1. by rewrite log_clock. }
    rewrite Hs. exists w'. split; [done|].
    unfold invocations, sent. rewrite Ht.
    fold (invocations w1) (sent w1). unfold w1.
    by rewrite log_invocations, log_sent.
  - intros n Hn. unfold CallPipelineFunc. rewrite Hf, Hn.
    set (w1 := log rt h debugLevel _ [] w).
    assert (Hw1 : invocations w1 = invocations w /\ sent w1 = sent w).
    { unfold w1. by rewrite log_invocations, log_sent. }
    destruct fuel as [|fuel]; [by exists w1|].
    cbn [pipeline_loop].
    assert (Hctx : done_at (WithTimeout ctx (30 * Second) (clock w1))
                   = Some (td, e)).
    { unfold WithTimeout. rewrite Hd.
      assert (clock w1 = clock w) by apply log_clock.
      destruct (N.leb_spec td (clock w1 + 30 * Second)); [done|].
      unfold Second, Millisecond, Nanosecond in *. lia. }
    destruct (shell_spin h (main n) _ data td e (S fuel) Hctx He w1)
      as (w' & Hs & Ht).
    { unfold w1. by rewrite log_clock. }
    rewrite Hs. exists w'. split; [done|].
    unfold invocations, sent. rewrite Ht. exact Hw1.
Qed.

(** X12.  A stage is timed out only before it starts.  On a one-cell
    chain, with an ambient context that is alive through the grace
    interval, CallPipelineFunc invokes the handler one millisecond after
    the call, sends the payload the handler returned and returns nil,
    however long the handler took: the thirty seconds of the stage are
    not checked again after the handler was started. *)
Theorem slow_stage_is_not_timed_out (h : wsHandler) (ctx : Context)
    (meta : WsFunc) (data : WsFuncData) (w : World) (fuel : nat)
    (f : HandlerFunc) (n : wsHandlerTree) :
  fun_ h !! meta = Some f ->
  funcTree h !! repr f = Some n ->
  children n = None ->
  alive_until ctx (clock w + Millisecond) ->
  let r := call (main n) (WithTimeout ctx (30 * Second) (clock w)) data
             (clock w + Millisecond) (env w) in
  exists w',
    CallPipelineFunc rt (S fuel) h ctx meta data w = Returned None w' /\
    sent w' = sent w ++ [Payload (ret_data r)] /\
    invocations w' = invocations w ++ [repr (main n)] /\
    clock w' = clock w + Millisecond + elapsed r.
Proof.
  intros Hf Hn Hc Ha r. unfold CallPipelineFunc. rewrite Hf, Hn.
  set (w1 := log rt h debugLevel _ [] w).
  assert (Hc1 : clock w1 = clock w) by apply log_clock.
  assert (He1 : env w1 = env w) by apply log_env.
  rewrite pipeline_loop_turn by (by rewrite Hc1).
  cbn zeta. rewrite Hc.
  set (dw := invoke rt h (main n) _ data _ w1).
  assert (Hd : dw.1 = ret_data r).
  { unfold dw. rewrite invoke_data, Hc1, He1. reflexivity. }
  set (w2 := emit (ChanSend (Payload dw.1)) dw.2).
  assert (Hw : sent w2 = sent w ++ [Payload (ret_data r)] /\
               invocations w2 = invocations w ++ [repr (main n)] /\
               clock w2 = clock w + Millisecond + elapsed r).
  { unfold w2. rewrite emit_send_sent, emit_send_invocations, emit_clock, Hd.
    unfold dw. rewrite invoke_sent, invoke_invocations, invoke_clock, Hc1, He1.
    unfold w1. by rewrite log_sent, log_invocations. }
  destruct (String.eqb _ _); by exists w2.
Qed.

(** X13.  CallFunc, in every state of the call: it sends nothing on any
    channel; for a key that is not registered it invokes no handler; for
    a registered key it invokes the registered function at most once and
    no other function. *)
Theorem CallFunc_effects (h : wsHandler) (ctx : Context) (meta : WsFunc)
    (data : WsFuncData) (w : World) (fuel : nat) :
  sent (world_of (CallFunc rt fuel h ctx meta data w)) = sent w /\
  match fun_ h !! meta with
  | None =>
      invocations (world_of (CallFunc rt fuel h ctx meta data w))
      = invocations w
  | Some f =>
      invocations (world_of (CallFunc rt fuel h ctx meta data w))
      = invocations w \/
      invocations (world_of (CallFunc rt fuel h ctx meta data w))
      = invocations w ++ [repr f]
  end.
Proof.
  unfold CallFunc.
  set (w1 := log rt h debugLevel _ [] w).
  assert (Hw1 : invocations w1 = invocations w /\ sent w1 = sent w).
  { unfold w1. by rewrite log_invocations, log_sent. }
  destruct Hw1 as [Hi Hs].
  destruct (fun_ h !! meta) as [f|]; [|by simpl].
  destruct (shell_effects h f ctx data fuel w1) as (Hse & Hin).
  destruct (shell rt fuel h f ctx data w1) as [d w2|w2|w2];
    cbn [world_of] in *; rewrite ?log_sent, ?log_invocations, Hse, Hs;
    (split; [done|]); rewrite <- Hi;
    destruct Hin as [[-> _]|[-> _]]; auto.
Qed.

(** X14.  A chain of three different handlers whose first two payloads
    have a status other than "error", called on the key of the first with
    an ambient context that is alive up to the third invocation:
    CallPipelineFunc returns nil, having invoked the three handlers in the
    order of the chain, each on the data of the call and one millisecond
    after the stage before it returned, and having sent their three
    payloads in that order. *)
Theorem pipeline_runs_whole_chain (k1 k2 k3 : WsFunc)
    (f1 f2 f3 : HandlerFunc) (wn : World) (ctx : Context) (data : WsFuncData)
    (w : World) (fuel : nat) :
  k1 <> k2 -> k1 <> k3 -> k2 <> k3 ->
  repr f1 <> repr f2 -> repr f1 <> repr f3 -> repr f2 <> repr f3 ->
  let h := Handle k3 f3 [f2]
             (Handle k2 f2 [f1] (Handle k1 f1 [] (NewHandler rt wn).1)) in
  let t1 := clock w + Millisecond in
  let r1 := call f1 (WithTimeout ctx (30 * Second) (clock w)) data t1 (env w) in
  let s2 := t1 + elapsed r1 in
  let t2 := s2 + Millisecond in
  let r2 := call f2 (WithTimeout ctx (30 * Second) s2) data t2 (env_after r1) in
  let s3 := t2 + elapsed r2 in
  let t3 := s3 + Millisecond in
  let r3 := call f3 (WithTimeout ctx (30 * Second) s3) data t3 (env_after r2) in
  alive_until ctx t3 ->
  Status (Payload (ret_data r1)) <> ErrorLevel ->
  Status (Payload (ret_data r2)) <> ErrorLevel ->
  exists w',
    CallPipelineFunc rt (3 + fuel) h ctx k1 data w = Returned None w' /\
    sent w' = sent w ++ [Payload (ret_data r1); Payload (ret_data r2);
                         Payload (ret_data r3)] /\
    invocations w' = invocations w ++ [repr f1; repr f2; repr f3] /\
    clock w' = t3 + elapsed r3.
Proof.
  intros Hk12 Hk13 Hk23 Hr12 Hr13 Hr23 h t1 r1 s2 t2 r2 s3 t3 r3 Halive Hs1 Hs2.
  destruct (chain_of_three k1 k2 k3 f1 f2 f3 wn) as (_ & Hf & L1 & L2 & L3);
    try done.
  fold h in Hf, L1, L2, L3.
  unfold CallPipelineFunc. rewrite Hf, L1.
  set (w1 := log rt h debugLevel _ [] w).
  assert (Hc1 : clock w1 = clock w) by apply log_clock.
  assert (He1 : env w1 = env w) by apply log_env.
  change (3 + fuel)%nat with (S (S (S fuel))).
  rewrite pipeline_loop_turn.
  2:{ rewrite Hc1. apply alive_until_le with t3; [|done].
      unfold t3, s3, t2, s2, t1. lia. }
  cbn zeta. cbn [main children].
  set (dw1 := invoke rt h f1 _ data _ w1).
  assert (Hd1 : dw1.1 = ret_data r1).
  { unfold dw1. rewrite invoke_data, Hc1, He1. reflexivity. }
  rewrite Hd1.
  destruct (String.eqb_spec (Status (Payload (ret_data r1))) ErrorLevel);
    [done|].
  rewrite L2.
  set (w2 := emit (ChanSend (Payload (ret_data r1))) dw1.2).
  assert (Hc2 : clock w2 = s2).
  { unfold w2, dw1. rewrite emit_clock, invoke_clock, Hc1, He1. reflexivity. }
  assert (He2 : env w2 = env_after r1).
  { unfold w2, dw1. rewrite emit_env, invoke_env, Hc1, He1. reflexivity. }
  rewrite pipeline_loop_turn.
  2:{ rewrite Hc2. apply alive_until_le with t3; [|done]. unfold t3, s3. lia. }
  cbn zeta. cbn [main children].
  set (dw2 := invoke rt h f2 _ data _ w2).
  assert (Hd2 : dw2.1 = ret_data r2).
  { unfold dw2. rewrite invoke_data, Hc2, He2. reflexivity. }
  rewrite Hd2.
  destruct (String.eqb_spec (Status (Payload (ret_data r2))) ErrorLevel);
    [done|].
  rewrite L3.
  set (w3 := emit (ChanSend (Payload (ret_data r2))) dw2.2).
  assert (Hc3 : clock w3 = s3).
  { unfold w3, dw2. rewrite emit_clock, invoke_clock, Hc2, He2. reflexivity. }
  assert (He3 : env w3 = env_after r2).
  { unfold w3, dw2. rewrite emit_env, invoke_env, Hc2, He2. reflexivity. }
  rewrite pipeline_loop_turn by (by rewrite Hc3).
  cbn zeta. cbn [main children].
  set (dw3 := invoke rt h f3 _ data _ w3).
  assert (Hd3 : dw3.1 = ret_data r3).
  { unfold dw3. rewrite invoke_data, Hc3, He3. reflexivity. }
  set (w4 := emit (ChanSend (Payload dw3.1)) dw3.2).
  assert (Hw4 : sent w4 = sent w ++ [Payload (ret_data r1); Payload (ret_data r2);
                                     Payload (ret_data r3)] /\
                invocations w4 = invocations w ++ [repr f1; repr f2; repr f3] /\
                clock w4 = t3 + elapsed r3).
  { unfold w4. rewrite emit_send_sent, emit_send_invocations, emit_clock, Hd3.
    unfold dw3.
    rewrite invoke_sent, invoke_invocations, invoke_clock, Hc3, He3.
    unfold w3. rewrite emit_send_sent, emit_send_invocations. unfold dw2.
    rewrite invoke_sent, invoke_invocations.
    unfold w2. rewrite emit_send_sent, emit_send_invocations. unfold dw1.
    rewrite invoke_sent, invoke_invocations.
    unfold w1. rewrite log_sent, log_invocations.
    by rewrite <- !app_assoc. }
  destruct (String.eqb _ _); by exists w4.
Qed.

(** X15.  The tree tells functions apart by their representation only.
    When [g] is registered as a root, [p] as another root and then [f],
    with the representation of [g], under [p]: no error arises, the key of
    [f] is bound to [f], but the cell under that representation still
    holds [g].  CallFunc on the key of [f] then runs [f], while
    CallPipelineFunc on the same key runs [g]. *)
Theorem same_representation_other_function (k1 kp k2 : WsFunc)
    (g p f : HandlerFunc) (wn : World) (ctx : Context) (data : WsFuncData)
    (w : World) (fuel : nat) :
  k1 <> kp -> k1 <> k2 -> kp <> k2 ->
  repr f = repr g -> repr p <> repr g ->
  alive_until ctx (clock w + Millisecond) ->
  let h := Handle k2 f [p]
             (Handle kp p [] (Handle k1 g [] (NewHandler rt wn).1)) in
  let t := clock w + Millisecond in
  err h = None /\
  fun_ h !! k2 = Some f /\
  funcTree h !! repr f
    = Some {| main := g; parent := Some (repr p); children := None |} /\
  (exists w', CallFunc rt (S fuel) h ctx k2 data w
              = Returned (ret_data (call f ctx data t (env w)), None) w') /\
  (exists w', CallPipelineFunc rt (S fuel) h ctx k2 data w = Returned None w' /\
              sent w' = sent w ++
                [Payload (ret_data
                   (call g (WithTimeout ctx (30 * Second) (clock w)) data t
                      (env w)))]).
Proof.
  intros Hk1p Hk12 Hkp2 Hfg Hpg Halive h t.
  assert (E : h = {| fun_ := <[k2:=f]> (<[kp:=p]> (<[k1:=g]> ∅));
                     funcTree :=
                       alter (set_parent (Some (repr p))) (repr g)
                         (alter (set_children (Some (repr g))) (repr p)
                            (<[repr p:=new_tree p]>
                               (<[repr g:=new_tree g]> ∅)));
                     logLevel := infoLevel; err := None |}).
  { unfold h, Handle. simpl. rewrite !lookup_empty. simpl.
    rewrite (lookup_insert_ne _ k1 kp), lookup_empty by done.
    rewrite (lookup_insert_ne _ (repr g) (repr p)), lookup_empty by done.
    simpl.
    rewrite (lookup_insert_ne _ kp k2), (lookup_insert_ne _ k1 k2),
      lookup_empty by done.
    rewrite Hfg.
    rewrite (lookup_insert_ne _ (repr p) (repr g)), lookup_insert_eq by done.
    simpl. unfold Handle_link. simpl. rewrite Hfg, lookup_insert_eq. simpl.
    reflexivity. }
  assert (Hf : fun_ h !! k2 = Some f) by (rewrite E; apply lookup_insert_eq).
  assert (Hn : funcTree h !! repr f
               = Some {| main := g; parent := Some (repr p);
                         children := None |}).
  { rewrite E, Hfg. simpl.
    rewrite lookup_alter_eq, lookup_alter_ne by done.
    by rewrite lookup_insert_ne, lookup_insert_eq by done. }
  split; [by rewrite E|]. split; [done|]. split; [done|]. split.
  - unfold CallFunc. rewrite Hf.
    set (w1 := log rt h debugLevel _ [] w).
    assert (Hc1 : clock w1 = clock w) by apply log_clock.
    assert (He1 : env w1 = env w) by apply log_env.
    rewrite (shell_after h f ctx data w1 t).
    + rewrite invoke_data, He1. by eexists.
    + rewrite Hc1. by apply select_after.
  - unfold CallPipelineFunc. rewrite Hf, Hn.
    set (w1 := log rt h debugLevel _ [] w).
    assert (Hc1 : clock w1 = clock w) by apply log_clock.
    assert (He1 : env w1 = env w) by apply log_env.
    rewrite pipeline_loop_turn by (by rewrite Hc1).
    cbn zeta. cbn [main children].
    set (dw := invoke rt h g _ data _ w1).
    set (w2 := emit (ChanSend (Payload dw.1)) dw.2).
    assert (Hw2 : sent w2 = sent w ++
              [Payload (ret_data
                 (call g (WithTimeout ctx (30 * Second) (clock w)) data t
                    (env w)))]).
    { unfold w2. rewrite emit_send_sent. unfold dw.
      rewrite invoke_sent, invoke_data, Hc1, He1.
      unfold w1. by rewrite log_sent. }
    destruct (String.eqb _ _); by exists w2.
Qed.

(** * Further properties of the levels and of the names *)

(** X16.  SetLogLevel on a registry without error.  For a spelling of a
    level it sets the log level to that level, leaves the rest of the
    registry as it was and logs the change at info level: the record
    reaches the logger only when the new level is info or above, so
    lowering the level below info is not reported.  For any other string
    it sets the error, which wraps the error of ParseLevel and names
    SetLogLevel, keeps the log level and logs nothing. *)
Theorem SetLogLevel_outcome (h : wsHandler) (s : string) (w : World) :
  err h = None ->
  (ToLower s ∈ level_names ->
     (SetLogLevel rt s h w).1 = set_logLevel (@ParseLevel V s).1 h /\
     printed (SetLogLevel rt s h w).2
       = printed w ++
         (if infoLevel <=? (@ParseLevel V s).1
          then [log_record rt infoLevel
                  (Errorf "change log level to %s" [OpStr s]) [] w]
          else []) /\
     sent (SetLogLevel rt s h w).2 = sent w /\
     invocations (SetLogLevel rt s h w).2 = invocations w) /\
  (ToLower s ∉ level_names ->
     SetLogLevel rt s h w
       = (set_err (Errorf "%w:%s"
                     [OpErr (Errorf "not a valid Level: %q" [OpStr s]);
                      OpStr "SetLogLevel"]) h, w)).
Proof.
  intros He. unfold SetLogLevel. rewrite He. split.
  - intros Hin. pose proof (ParseLevel_valid s Hin) as Hv.
    destruct (ParseLevel s) as [l [e|]]; [discriminate|]. simpl.
    split; [done|].
    rewrite log_printed, log_sent, log_invocations. done.
  - intros Hn. by rewrite (ParseLevel_invalid s Hn).
Qed.

(** X17.  ParseLevel succeeds exactly on the strings whose lower case is
    one of the eight spellings; the level it returns is always one of the
    seven (at most trace), and it is the zero level, the one of panic,
    whenever it fails.  The seven level names of the package parse to the
    seven levels, in order. *)
Theorem ParseLevel_range :
  (forall s : string,
      ((@ParseLevel V s).2 = None <-> ToLower s ∈ level_names) /\
      (@ParseLevel V s).1 <= traceLevel /\
      ((@ParseLevel V s).2 <> None -> (@ParseLevel V s).1 = panicLevel)) /\
  map (@ParseLevel V)
    [PanicLevel; FatalLevel; ErrorLevel; WarnLevel; InfoLevel; DebugLevel;
     TraceLevel]
  = map (fun l => (l, None))
      [panicLevel; fatalLevel; errorLevel; warnLevel; infoLevel; debugLevel;
       traceLevel].
Proof.
  split; [|reflexivity].
  intros s. split; [|split].
  - split.
    + intros Hs. destruct (decide (ToLower s ∈ level_names)) as [|Hn]; [done|].
      by rewrite (ParseLevel_invalid s Hn) in Hs.
    + apply ParseLevel_valid.
  - unfold ParseLevel.
    repeat match goal with
    | |- context [String.eqb ?a ?b] => destruct (String.eqb a b); simpl
    end; unfold traceLevel, debugLevel, infoLevel, warnLevel, errorLevel,
           fatalLevel, panicLevel; lia.
  - unfold ParseLevel.
    repeat match goal with
    | |- context [String.eqb ?a ?b] => destruct (String.eqb a b); simpl
    end; done.
Qed.

Lemma append_cons c (s t : string) : String c s +:+ t = String c (s +:+ t).
Proof. reflexivity. Qed.

Lemma append_nil_r (s : string) : s +:+ "" = s.
Proof.
  induction s as [|c s IH]; [done|]. by rewrite append_cons, IH.
Qed.

Lemma append_assoc (a b c : string) : (a +:+ b) +:+ c = a +:+ (b +:+ c).
Proof.
  induction a as [|x a IH]; [done|]. by rewrite !append_cons, IH.
Qed.

Lemma has_slash_append (a b : string) :
  has_slash (a +:+ b) = has_slash a || has_slash b.
Proof.
  induction a as [|x a IH]; [done|].
  rewrite append_cons. simpl. rewrite IH. by rewrite orb_assoc.
Qed.

Lemma is_byte_eq c n : n < 256 -> is_byte c n = true -> c = ascii_of_N n.
Proof.
  unfold is_byte. intros Hn H%N.eqb_eq. by rewrite <- H, ascii_N_embedding.
Qed.

Lemma last_segment_spec (s : string) :
  forall acc, has_slash acc = false ->
    has_slash (last_segment acc s) = false /\
    exists p, acc +:+ s = p +:+ last_segment acc s /\
              (p = "" \/ exists q, p = q +:+ "/").
Proof.
  induction s as [|c s IH]; intros acc Hacc; simpl.
  - split; [done|]. exists "". split; [by rewrite append_nil_r|by left].
  - destruct (is_byte c 47) eqn:Hc.
    + destruct (IH "" eq_refl) as (Hs & p & Hp & Hq). split; [done|].
      apply is_byte_eq in Hc; [|lia]. subst c.
      change ("" +:+ s) with s in Hp.
      exists (acc +:+ "/" +:+ p). split.
      * rewrite !append_assoc. change ("/" +:+ p +:+ last_segment "" s)
          with (String "/" (p +:+ last_segment "" s)). by rewrite <- Hp.
      * right. destruct Hq as [->|[q ->]].
        -- exists acc. by rewrite append_nil_r.
        -- exists (acc +:+ "/" +:+ q). by rewrite !append_assoc.
    + destruct (IH (acc +:+ String c "")) as (Hs & p & Hp & Hq).
      { rewrite has_slash_append, Hacc. simpl. by rewrite Hc. }
      split; [done|]. exists p. split; [|done].
      rewrite <- Hp, append_assoc. done.
Qed.

(** X18.  getFunctionName returns what follows the last slash of the name
    it is given: the result contains no slash, the name is the result
    after a prefix that is empty or ends with a slash, and a name without
    slash is returned as it is. *)
Theorem getFunctionName_after_last_slash (s : string) :
  has_slash (getFunctionName s) = false /\
  (exists p, s = p +:+ getFunctionName s /\
             (p = "" \/ exists q, p = q +:+ "/")) /\
  (has_slash s = false -> getFunctionName s = s).
Proof.
  unfold getFunctionName.
  destruct (last_segment_spec s "" eq_refl) as (Hs & p & Hp & Hq).
  change ("" +:+ s) with s in Hp. split; [done|]. split; [by exists p|].
  intros Hn. destruct Hq as [->|[q ->]]; [done|].
  rewrite Hp, !has_slash_append in Hn. simpl in Hn.
  by rewrite orb_true_r in Hn.
Qed.

Lemma configure_all_app cs1 cs2 (hw : wsHandler * World) :
  configure_all rt (cs1 ++ cs2) hw
  = configure_all rt cs2 (configure_all rt cs1 hw).
Proof. unfold configure_all. apply foldl_app. Qed.

(** X19.  The first failure of a chain of configuration calls decides its
    result: when the registry has an error after a first part of the
    chain, the calls that follow change neither the registry nor the
    world, and GetError at the end of the whole chain returns that
    error. *)
Theorem first_error_wins (h : wsHandler) (w : World) cs1 cs2 (e : error) :
  err (configure_all rt cs1 (h, w)).1 = Some e ->
  configure_all rt (cs1 ++ cs2) (h, w) = configure_all rt cs1 (h, w) /\
  GetError (configure_all rt (cs1 ++ cs2) (h, w)).1 = Some e.
Proof.
  intros He. rewrite configure_all_app.
  destruct (configure_all rt cs1 (h, w)) as [h1 w1] eqn:E. simpl in He.
  rewrite (configure_all_sticky h1 e) by done. by split.
Qed.

(** X20.  What CallFunc logs for a registered key when the handler runs
    and returns no error: nothing at all when the configured level is
    below debug (as it is by default), and otherwise exactly two records
    at debug level, one before the call with the key and the input, one
    after it with the key and the data returned. *)
Theorem CallFunc_debug_records (h : wsHandler) (ctx : Context) (meta : WsFunc)
    (data : WsFuncData) (w : World) (fuel : nat) (f : HandlerFunc) :
  fun_ h !! meta = Some f ->
  alive_until ctx (clock w + Millisecond) ->
  let r := call f ctx data (clock w + Millisecond) (env w) in
  ret_err r = None ->
  let ev_in := Errorf "in:%v:%v:%s"
                 [OpMeta meta; OpData data; OpStr name_CallFunc] in
  let ev_out := Errorf "out:%v:%v:%s"
                  [OpMeta meta; OpData (ret_data r); OpStr name_CallFunc] in
  exists w',
    CallFunc rt (S fuel) h ctx meta data w = Returned (ret_data r, None) w' /\
    printed w'
      = printed w ++
        (if debugLevel <=? logLevel h
         then [log_record rt debugLevel ev_in [] w;
               log_record rt debugLevel ev_out []
                 (log rt h debugLevel ev_in [] w)]
         else []).
Proof.
  intros Hf Ha r Hr ev_in ev_out. unfold CallFunc. rewrite Hf.
  fold ev_in. set (w1 := log rt h debugLevel ev_in [] w).
  assert (Hc1 : clock w1 = clock w) by apply log_clock.
  assert (He1 : env w1 = env w) by apply log_env.
  rewrite (shell_after h f ctx data w1 (clock w + Millisecond))
    by (rewrite Hc1; by apply select_after).
  assert (Hinv : invoke rt h f ctx data (clock w + Millisecond) w1
                 = (ret_data r,
                    after_call f ctx data r
                      (set_clock (clock w + Millisecond) w1))).
  { unfold invoke. simpl env. rewrite He1. fold r. by rewrite Hr. }
  rewrite Hinv. cbn [fst snd]. fold ev_out.
  eexists. split; [reflexivity|].
  rewrite log_printed.
  assert (Hp : printed (after_call f ctx data r
                          (set_clock (clock w + Millisecond) w1))
               = printed w1).
  { unfold printed, after_call. simpl. rewrite omap_app. simpl.
    by rewrite app_nil_r. }
  rewrite Hp. unfold w1 at 1. rewrite log_printed.
  destruct (debugLevel <=? logLevel h); [|by rewrite !app_nil_r].
  by rewrite <- app_assoc.
Qed.

End Properties.






(** * The properties at the sample values *)

Import Samples.

Lemma ParseLevel_case_insensitive_witness :
  (ToLower "bogus" ∉ level_names) /\
  @ParseLevel unit "bogus"
    = (0, Some (Errorf "not a valid Level: %q" [OpStr "bogus"])) /\
  (@ParseLevel unit "Warn").1 = (@ParseLevel unit "wARN").1.
Proof.
  assert (H : ToLower "bogus" ∉ level_names).
  { apply (bool_decide_unpack _). vm_compute. exact I. }
  split; [exact H|]. split.
  - apply (proj1 (proj2 (proj2 (proj2 (@ParseLevel_case_insensitive unit))))).
    exact H.
  - apply (proj1 (@ParseLevel_case_insensitive unit)). reflexivity.
Defined.

Lemma error_state_is_sticky_witness :
  err twice
    = Some (Errorf "func with current params has been registered" []) /\
  Handle (key "b") f2 [] twice = twice /\
  SetLogLevel rt "debug" twice w0 = (twice, w0).
Proof.
  assert (H : err twice
              = Some (Errorf "func with current params has been registered" []))
    by (vm_compute; reflexivity).
  split; [exact H|].
  destruct (error_state_is_sticky rt twice _ H) as (HH & HS & _).
  split; [apply HH|apply HS].
Defined.

Lemma Handle_rejects_node_with_child_witness :
  has_own_child two_links F /\
  rejected_unchanged two_links (Handle (key "x") F [P2] two_links).
Proof.
  assert (H : has_own_child two_links F).
  { eexists _, _. split; vm_compute; reflexivity. }
  split; [exact H|].
  apply (Handle_rejects_node_with_child two_links (key "x") F P2 [] H).
Defined.

(** C1, as it was stated, fails on [one_link]: [F] is the child of [P1]
    there, and registering it again under [P2] sets no error and links
    the cell of [F] to [P2]. *)
Lemma Handle_relinks_child_of_another :
  ~ ((child_of_another one_link F P2 \/ has_own_child one_link F) ->
     rejected_unchanged one_link (Handle (key "g") F [P2] one_link)).
Proof.
  intros H.
  destruct H as [Herr _].
  - left. eexists _, _. split; [vm_compute; reflexivity|].
    split; [reflexivity|discriminate].
  - apply Herr. vm_compute. reflexivity.
Qed.

(** The links before and after that call: the cell of [F] names [P2] as
    its parent instead of [P1], both [P1] and [P2] name [F] as their
    child. *)
Example relinked_cells :
  let h' := Handle (key "g") F [P2] one_link in
  parent <$> funcTree one_link !! "F" = Some (Some "P1") /\
  parent <$> funcTree h' !! "F" = Some (Some "P2") /\
  children <$> funcTree h' !! "P1" = Some (Some "F") /\
  children <$> funcTree h' !! "P2" = Some (Some "F") /\
  fun_ h' !! key "g" = Some F.
Proof. vm_compute. repeat split. Qed.

Lemma Handle_missing_parent_keeps_new_node_witness :
  err fresh = None /\
  err (Handle (key "f") F [P1] fresh) = Some (no_parent_error F P1) /\
  fun_ (Handle (key "f") F [P1] fresh) = fun_ fresh /\
  funcTree (Handle (key "f") F [P1] fresh)
    = <[repr F := new_tree F]> (funcTree fresh).
Proof.
  assert (H1 : err fresh = None) by reflexivity.
  assert (H2 : err (Handle (key "f") F [P1] fresh) = Some (no_parent_error F P1))
    by (vm_compute; reflexivity).
  split; [exact H1|]. split; [exact H2|].
  destruct (Handle_missing_parent_keeps_new_node rt fresh (key "f") F P1 []
              H1 H2) as (Hf & Hnew & _).
  split; [exact Hf|]. apply Hnew. reflexivity.
Defined.

Lemma shell_deadline_expired_witness :
  done_at expired = Some (0, DeadlineExceeded) /\ 0 <= clock w0 /\
  exists w', shell rt 1 fresh f1 expired ping w0
             = Returned (timeout_data ping) w' /\
             invocations w' = invocations w0.
Proof.
  assert (H1 : done_at expired = Some (0, DeadlineExceeded)) by reflexivity.
  assert (H2 : 0 <= clock w0) by (simpl; lia).
  split; [exact H1|]. split; [exact H2|].
  destruct (shell_deadline_expired rt fresh f1 expired ping w0 0 0 H1 H2)
    as (Hs & _ & _ & _ & Hi & _).
  eexists. split; [exact Hs|exact Hi].
Defined.

Lemma shell_returns_handler_data_witness :
  select rt background (clock w0) Millisecond = (CaseAfter, 1000000) /\
  ret_err (call failing background ping 1000000 (env w0)) = Some boom /\
  exists w', shell rt 1 fresh failing background ping w0
             = Returned (ret_data (call failing background ping 1000000 (env w0)))
                 w'.
Proof.
  assert (H1 : select rt background (clock w0) Millisecond
               = (CaseAfter, 1000000)) by reflexivity.
  assert (H2 : ret_err (call failing background ping 1000000 (env w0))
               = Some boom) by reflexivity.
  split; [exact H1|]. split; [exact H2|].
  destruct (shell_returns_handler_data rt fresh failing background ping w0
              1000000 boom 0 H1 H2) as (Hs & _).
  eexists. exact Hs.
Defined.

Lemma shell_spins_when_cancelled_witness :
  done_at cancelled = Some (0, Canceled) /\
  is_DeadlineExceeded (@Canceled unit) = false /\
  0 < clock w0 + Millisecond /\
  exists w', shell rt 1000 fresh f1 cancelled ping w0 = Spinning w' /\
             trace w' = trace w0.
Proof.
  assert (H1 : done_at cancelled = Some (0, Canceled)) by reflexivity.
  assert (H2 : is_DeadlineExceeded (@Canceled unit) = false) by reflexivity.
  assert (H3 : 0 < clock w0 + Millisecond) by (vm_compute; reflexivity).
  split; [exact H1|]. split; [exact H2|]. split; [exact H3|].
  destruct (shell_spins_when_cancelled rt fresh f1 cancelled ping w0 0 Canceled
              H1 H2 H3 1000) as (w' & Hs & Ht & _).
  exists w'. split; [exact Hs|exact Ht].
Defined.

Lemma CallFunc_miss_and_hit_witness :
  fun_ fresh !! key "a" = None /\
  (exists e w', CallFunc rt 0 fresh background (key "a") ping w0
                = Returned (error_data ping, Some e) w') /\
  fun_ single !! key "a" = Some f1 /\
  gate_passes background (clock w0) /\
  (exists d w', CallFunc rt 1 single background (key "a") ping w0
                = Returned (d, None) w').
Proof.
  assert (H1 : fun_ fresh !! key "a" = None) by reflexivity.
  assert (H2 : fun_ single !! key "a" = Some f1) by (vm_compute; reflexivity).
  assert (H3 : gate_passes background (clock w0)) by exact I.
  split; [exact H1|]. split.
  { destruct (proj1 (CallFunc_miss_and_hit rt fresh background (key "a") ping
                       w0 0) H1) as (Hc & _).
    eexists _, _. exact Hc. }
  split; [exact H2|]. split; [exact H3|].
  exact (proj2 (proj2 (proj2 (CallFunc_miss_and_hit rt single background
                                (key "a") ping w0 0) f1 H2)) H3).
Defined.

Lemma CallPipelineFunc_miss_and_nil_witness :
  fun_ fresh !! key "a" = None /\
  (exists e w', CallPipelineFunc rt 0 fresh background (key "a") ping w0
                = Returned (Some e) w' /\
                sent w' = sent w0 ++ [miss_payload ping]) /\
  closed single /\
  fun_ single !! key "a" = Some f1 /\
  (exists w', CallPipelineFunc rt 1 single background (key "a") ping w0
              = Returned None w').
Proof.
  assert (H1 : fun_ fresh !! key "a" = None) by reflexivity.
  assert (H2 : fun_ single !! key "a" = Some f1) by (vm_compute; reflexivity).
  assert (H3 : closed single).
  { apply (closed_configured rt [DoHandle (key "a") f1 []] w0 w0). }
  split; [exact H1|]. split.
  { destruct (proj1 (CallPipelineFunc_miss_and_nil rt fresh background
                       (key "a") ping w0 0) H1) as (Hc & Hs & _).
    eexists _, _. split; [exact Hc|exact Hs]. }
  split; [exact H3|]. split; [exact H2|].
  destruct (proj2 (CallPipelineFunc_miss_and_nil rt single background
                     (key "a") ping w0 0) H3 f1 H2)
    as (n & Hn & _ & _ & _ & Hone).
  apply Hone.
  - assert (E : funcTree single !! repr f1 = Some (new_tree f1))
      by (vm_compute; reflexivity).
    rewrite E in Hn. by injection Hn as <-.
  - simpl. left. reflexivity.
Defined.

Lemma pipeline_stops_at_error_status_witness :
  exists w',
    CallPipelineFunc rt 2
      (Handle (key "c") f3 [f2]
         (Handle (key "b") f2 [f1] (Handle (key "a") f1 [] (NewHandler rt w0).1)))
      background (key "a") ping w0 = Returned None w' /\
    length (sent w') = 2%nat /\
    invocations w' = ["f1"; "f2"].
Proof.
  destruct (pipeline_stops_at_error_status rt (key "a") (key "b") (key "c")
              f1 f2 f3 w0 background ping w0 0)
    as (_ & w' & Hc & Hs & Hi & _);
    try discriminate; try reflexivity; try exact I.
  exists w'. split; [exact Hc|]. split; [by rewrite Hs|exact Hi].
Defined.

(** * The further properties at the sample values *)

Lemma Handle_success_witness :
  err fresh = None /\ err single = None /\
  fun_ single = <[key "a" := f1]> (fun_ fresh).
Proof.
  assert (H1 : err fresh = None) by reflexivity.
  assert (H2 : err (Handle (key "a") f1 [] fresh) = None)
    by (vm_compute; reflexivity).
  split; [exact H1|]. split; [exact H2|].
  exact (proj1 (proj2 (Handle_success fresh (key "a") f1 [] H1 H2))).
Defined.

Lemma Handle_rejection_frame_witness :
  err single = None /\
  err (Handle (key "b") f2 [f3] single) <> None /\
  fun_ (Handle (key "b") f2 [f3] single) = fun_ single.
Proof.
  assert (H1 : err single = None) by (vm_compute; reflexivity).
  assert (H2 : err (Handle (key "b") f2 [f3] single) <> None)
    by (vm_compute; discriminate).
  split; [exact H1|]. split; [exact H2|].
  exact (proj1 (Handle_rejection_frame single (key "b") f2 [f3] H1 H2)).
Defined.

Lemma registration_is_permanent_witness :
  fun_ single !! key "a" = Some f1 /\
  fun_ (configure_all rt [DoHandle (key "a") f2 []; DoSetLogLevel "debug"]
          (single, w0)).1 !! key "a" = Some f1.
Proof.
  assert (H : fun_ single !! key "a" = Some f1) by (vm_compute; reflexivity).
  split; [exact H|].
  apply (proj1 (registration_is_permanent rt single (key "a") f1 H)).
Defined.


Lemma configuration_keeps_closed_witness :
  closed fresh /\
  closed (configure_all rt [DoHandle (key "b") f2 [f3]] (fresh, w0)).1.
Proof.
  assert (H : closed fresh)
    by apply (proj1 (configuration_keeps_closed (V:=unit) (Env:=unit) rt) w0).
  split; [exact H|].
  apply (proj2 (configuration_keeps_closed rt) fresh _ w0 H).
Defined.

Lemma registered_function_is_no_new_root_witness :
  err fresh = None /\ err single = None /\
  err (Handle (key "b") f1 [] single) = Some (declared_error f1).
Proof.
  assert (H1 : err fresh = None) by reflexivity.
  assert (H2 : err (Handle (key "a") f1 [] fresh) = None)
    by (vm_compute; reflexivity).
  split; [exact H1|]. split; [exact H2|].
  exact (proj1 (registered_function_is_no_new_root fresh (key "a") f1 []
                  (key "b") H1 H2)).
Defined.

Lemma pipeline_stream_shape_witness :
  exists w',
    CallPipelineFunc rt 1 single background (key "a") ping w0
      = Returned None w' /\
    exists ps p, sent w' = sent w0 ++ ps ++ [p] /\
                 Forall (fun q => Status q <> ErrorLevel) ps.
Proof.
  eexists. split; [vm_compute; reflexivity|].
  destruct (pipeline_stream_shape rt single background (key "a") ping w0 _ 1
              None ltac:(vm_compute; reflexivity)) as (ps & p & Hs & Hf & _).
  exists ps, p. split; [exact Hs|exact Hf].
Defined.

Lemma self_parent_pipeline_never_ends_witness :
  done_at background = None /\
  exists w',
    CallPipelineFunc rt 5 (Handle (key "a") f1 [f1] (NewHandler rt w0).1)
      background (key "a") ping w0 = Spinning w' /\
    length (sent w') = 5%nat.
Proof.
  assert (H : done_at background = None) by reflexivity.
  split; [exact H|].
  destruct (self_parent_pipeline_never_ends rt (key "a") f1 w0)
    as (_ & _ & _ & Hrun).
  destruct (Hrun background ping w0 H ltac:(intros; simpl; discriminate) 5%nat)
    as (w' & Hc & Hl).
  exists w'. split; [exact Hc|exact Hl].
Defined.

Lemma pipeline_expired_deadline_witness :
  done_at expired = Some (0, DeadlineExceeded) /\ 0 <= clock w0 /\
  fun_ single !! key "a" = Some f1 /\
  funcTree single !! repr f1 = Some (new_tree f1) /\
  exists w',
    CallPipelineFunc rt 1 single expired (key "a") ping w0 = Returned None w' /\
    sent w' = sent w0 ++ [Payload (timeout_data ping)].
Proof.
  assert (H1 : done_at expired = Some (0, DeadlineExceeded)) by reflexivity.
  assert (H2 : 0 <= clock w0) by (simpl; lia).
  assert (H3 : fun_ single !! key "a" = Some f1) by (vm_compute; reflexivity).
  assert (H4 : funcTree single !! repr f1 = Some (new_tree f1))
    by (vm_compute; reflexivity).
  split; [exact H1|]. split; [exact H2|]. split; [exact H3|].
  split; [exact H4|].
  destruct (pipeline_expired_deadline rt single expired (key "a") ping w0 0 0
              f1 (new_tree f1) H1 H2 H3 H4) as (w' & Hc & Hs & _).
  exists w'. split; [exact Hc|exact Hs].
Defined.

Lemma dispatch_hangs_when_cancelled_witness :
  done_at cancelled = Some (0, Canceled) /\
  is_DeadlineExceeded (@Canceled unit) = false /\
  0 < clock w0 + Millisecond /\
  fun_ single !! key "a" = Some f1 /\
  exists w', CallFunc rt 1000 single cancelled (key "a") ping w0 = Spinning w' /\
             invocations w' = invocations w0.
Proof.
  assert (H1 : done_at cancelled = Some (0, Canceled)) by reflexivity.
  assert (H2 : is_DeadlineExceeded (@Canceled unit) = false) by reflexivity.
  assert (H3 : 0 < clock w0 + Millisecond) by (vm_compute; reflexivity).
  assert (H4 : fun_ single !! key "a" = Some f1) by (vm_compute; reflexivity).
  split; [exact H1|]. split; [exact H2|]. split; [exact H3|].
  split; [exact H4|].
  destruct (proj1 (dispatch_hangs_when_cancelled rt single cancelled (key "a")
                     ping w0 0 Canceled f1 H1 H2 H3 H4 1000%nat))
    as (w' & Hc & Hi & _).
  exists w'. split; [exact Hc|exact Hi].
Defined.

Lemma slow_stage_is_not_timed_out_witness :
  fun_ single_slow !! key "s" = Some slow /\
  funcTree single_slow !! repr slow = Some (new_tree slow) /\
  alive_until background (clock w0 + Millisecond) /\
  exists w',
    CallPipelineFunc rt 1 single_slow background (key "s") ping w0
      = Returned None w' /\
    length (sent w') = 1%nat /\
    clock w' = Millisecond + 31 * Second.
Proof.
  assert (H1 : fun_ single_slow !! key "s" = Some slow)
    by (vm_compute; reflexivity).
  assert (H2 : funcTree single_slow !! repr slow = Some (new_tree slow))
    by (vm_compute; reflexivity).
  assert (H3 : alive_until background (clock w0 + Millisecond)) by exact I.
  split; [exact H1|]. split; [exact H2|]. split; [exact H3|].
  destruct (slow_stage_is_not_timed_out rt single_slow background (key "s")
              ping w0 0 slow (new_tree slow) H1 H2 eq_refl H3)
    as (w' & Hc & Hs & _ & Hk).
  exists w'. split; [exact Hc|]. split; [by rewrite Hs|exact Hk].
Defined.

Lemma pipeline_runs_whole_chain_witness :
  exists w',
    CallPipelineFunc rt 3
      (Handle (key "c") F [P2]
         (Handle (key "b") P2 [P1] (Handle (key "a") P1 [] (NewHandler rt w0).1)))
      background (key "a") ping w0 = Returned None w' /\
    length (sent w') = 3%nat /\
    invocations w' = ["P1"; "P2"; "F"].
Proof.
  destruct (pipeline_runs_whole_chain rt (key "a") (key "b") (key "c")
              P1 P2 F w0 background ping w0 0)
    as (w' & Hc & Hs & Hi & _);
    try discriminate; try reflexivity; try exact I.
  exists w'. split; [exact Hc|]. split; [by rewrite Hs|exact Hi].
Defined.

Lemma same_representation_other_function_witness :
  repr closure_b = repr closure_a /\
  exists w1 w2,
    CallFunc rt 1
      (Handle (key "b") closure_b [P1]
         (Handle (key "p") P1 []
            (Handle (key "a") closure_a [] (NewHandler rt w0).1)))
      background (key "b") ping w0
      = Returned (ret_data (call closure_b background ping Millisecond tt), None)
          w1 /\
    CallPipelineFunc rt 1
      (Handle (key "b") closure_b [P1]
         (Handle (key "p") P1 []
            (Handle (key "a") closure_a [] (NewHandler rt w0).1)))
      background (key "b") ping w0 = Returned None w2.
Proof.
  assert (H : repr closure_b = repr closure_a) by reflexivity.
  split; [exact H|].
  destruct (same_representation_other_function rt (key "a") (key "p") (key "b")
              closure_a P1 closure_b w0 background ping w0 0)
    as (_ & _ & _ & (w1 & Hc1) & (w2 & Hc2 & _));
    try discriminate; try exact H; try exact I.
  exists w1, w2. split; [exact Hc1|exact Hc2].
Defined.

Lemma SetLogLevel_outcome_witness :
  err fresh = None /\ (ToLower "WARN" ∈ level_names) /\
  logLevel (SetLogLevel rt "WARN" fresh w0).1 = warnLevel /\
  printed (SetLogLevel rt "WARN" fresh w0).2 = printed w0.
Proof.
  assert (H1 : err fresh = None) by reflexivity.
  assert (H2 : ToLower "WARN" ∈ level_names).
  { apply (bool_decide_unpack _). vm_compute. exact I. }
  split; [exact H1|]. split; [exact H2|].
  destruct (proj1 (SetLogLevel_outcome rt fresh "WARN" w0 H1) H2)
    as (Hh & Hp & _).
  split; [by rewrite Hh|]. rewrite Hp. apply app_nil_r.
Defined.

Lemma ParseLevel_range_witness :
  (ToLower "Trace" ∈ level_names) /\ (@ParseLevel unit "Trace").2 = None.
Proof.
  assert (H : ToLower "Trace" ∈ level_names).
  { apply (bool_decide_unpack _). vm_compute. exact I. }
  split; [exact H|].
  apply (proj1 (proj1 (@ParseLevel_range unit) "Trace")). exact H.
Defined.

Lemma getFunctionName_after_last_slash_witness :
  has_slash "main.run" = false /\ getFunctionName "main.run" = "main.run".
Proof.
  assert (H : has_slash "main.run" = false) by reflexivity.
  split; [exact H|].
  exact (proj2 (proj2 (getFunctionName_after_last_slash "main.run")) H).
Defined.

Lemma first_error_wins_witness :
  err (configure_all rt [DoHandle (key "a") f1 []; DoHandle (key "a") f2 []]
         (fresh, w0)).1 = Some duplicate_key_error /\
  GetError (configure_all rt
              ([DoHandle (key "a") f1 []; DoHandle (key "a") f2 []]
               ++ [DoSetLogLevel "debug"]) (fresh, w0)).1
    = Some duplicate_key_error.
Proof.
  assert (H : err (configure_all rt
                     [DoHandle (key "a") f1 []; DoHandle (key "a") f2 []]
                     (fresh, w0)).1 = Some duplicate_key_error)
    by (vm_compute; reflexivity).
  split; [exact H|].
  exact (proj2 (first_error_wins rt fresh w0 _ [DoSetLogLevel "debug"] _ H)).
Defined.

Lemma CallFunc_debug_records_witness :
  fun_ single !! key "a" = Some f1 /\
  alive_until background (clock w0 + Millisecond) /\
  exists w',
    CallFunc rt 1 single background (key "a") ping w0
      = Returned (ret_data (call f1 background ping Millisecond tt), None) w' /\
    printed w' = printed w0.
Proof.
  assert (H1 : fun_ single !! key "a" = Some f1) by (vm_compute; reflexivity).
  assert (H2 : alive_until background (clock w0 + Millisecond)) by exact I.
  split; [exact H1|]. split; [exact H2|].
  destruct (CallFunc_debug_records rt single background (key "a") ping w0 0 f1
              H1 H2 eq_refl) as (w' & Hc & Hp).
  exists w'. split; [exact Hc|]. rewrite Hp. apply app_nil_r.
Defined.
